(** * Pulse-height simulation (sp.py): a shallow embedding and its properties

    The script synthesises a delayed bi-exponential pulse, adds uniform
    integer noise and a baseline, sums a window of the signal, quantises the
    sum by [>> 6] and histograms the result, once with the plain sum and once
    with a pre-pulse window subtracted.

    Conventions of the embedding:
    - a NumPy [int64] array is a [list Z]; every [int64] operation is the
      exact operation on [Z] followed by the two's-complement wrap-around;
    - a NumPy [float64] array is a [list float] over the binary64 primitives,
      and a Python [float] is a [float]; a Python [int] used as a time
      constant is the binary64 value it converts to;
    - [np.exp] is the platform's libm and is a parameter [exp] of the model;
    - a Python exception is a value [Raise e] of the type [result];
    - the shared pseudorandom source is a stream [raw] of draws with a cursor
      that every call of [np.random.randint] advances;
    - the script's named parameters are the fields of [params]; its inline
      literals (8192, 6, 1000, 16384, 300, 1.332*200) stay literals;
    - plotting and printing are left out. *)

From Stdlib Require Import ZArith List Lia Bool Floats QArith Qround Permutation.
Import ListNotations.
Local Open Scope Z_scope.
Set Warnings "-inexact-float,-abstract-large-number".

(** ** Python exceptions *)

Inductive exn : Type :=
| ZeroDivisionError
| ValueError
| OverflowError
| IndexError.

Inductive result (A : Type) : Type :=
| Ok (a : A)
| Raise (e : exn).
Arguments Ok {A} a.
Arguments Raise {A} e.

Definition bind {A B : Type} (r : result A) (k : A -> result B) : result B :=
  match r with
  | Ok a => k a
  | Raise e => Raise e
  end.

Notation "x <~ r ;; k" := (bind r (fun x => k))
  (at level 61, r at next level, right associativity).

(** ** int64 arithmetic *)

Module Int64.

Definition min_int : Z := - 2 ^ 63.
Definition max_int : Z := 2 ^ 63 - 1.

Definition in_range (z : Z) : Prop := min_int <= z <= max_int.

Definition in_rangeb (z : Z) : bool := (min_int <=? z) && (z <=? max_int).

(** Two's-complement representative of [z] in [[-2^63, 2^63)]. *)
Definition wrap (z : Z) : Z := (z + 2 ^ 63) mod 2 ^ 64 - 2 ^ 63.

Definition add (a b : Z) : Z := wrap (a + b).
Definition sub (a b : Z) : Z := wrap (a - b).

(** [a >> n] on a signed 64-bit value, for a shift count [0 <= n < 64]:
    the sign bit is replicated. *)
Definition shr (a n : Z) : Z := Z.shiftr a n.

End Int64.

(** ** binary64 values *)

Definition is_zero (f : float) : bool :=
  match Prim2SF f with
  | S754_zero _ => true
  | _ => false
  end.

Definition is_finite (f : float) : bool :=
  match Prim2SF f with
  | S754_zero _ | S754_finite _ _ _ => true
  | _ => false
  end.

(** The integer part of [m * 2^e], for a mantissa [m] and an exponent [e] of
    either sign. *)
Definition trunc_mag (m : positive) (e : Z) : Z := Z.shiftl (Z.pos m) e.

(** Rounding toward zero of a finite binary64 value; [None] for an infinity
    or a NaN. *)
Definition float_trunc (f : float) : option Z :=
  match Prim2SF f with
  | S754_zero _ => Some 0
  | S754_finite s m e => Some (if s then - trunc_mag m e else trunc_mag m e)
  | S754_infinity _ | S754_nan => None
  end.

(** The rational number a finite binary64 value denotes. *)
Definition float_value (f : float) : option Q :=
  match Prim2SF f with
  | S754_zero _ => Some 0%Q
  | S754_finite s m e =>
      let q := if 0 <=? e then inject_Z (Z.pos m * 2 ^ e)
               else Qmake (Z.pos m) (Z.to_pos (2 ^ (- e))) in
      Some (if s then Qopp q else q)
  | S754_infinity _ | S754_nan => None
  end.

(** Rounding of a rational toward zero. *)
Definition Qtrunc (q : Q) : Z :=
  if Qle_bool 0 q then Qfloor q else Qceiling q.

(** [.astype(int)] on one float64 element: the C conversion to a signed
    64-bit integer, which rounds toward zero; a NaN, an infinity or a value
    out of range converts to the x86-64 "integer indefinite" value [-2^63]. *)
Definition astype_int (f : float) : Z :=
  match float_trunc f with
  | Some z => if Int64.in_rangeb z then z else Int64.min_int
  | None => Int64.min_int
  end.

(** A float that is neither a zero nor a NaN. *)
Definition nonzero_number (f : float) : bool :=
  match Prim2SF f with
  | S754_zero _ | S754_nan => false
  | _ => true
  end.

(** Python's [a / b] on two floats. *)
Definition py_truediv (a b : float) : result float :=
  if is_zero b then Raise ZeroDivisionError else Ok (a / b)%float.

(** A Python number passed as the noise amplitude: an [int] or a [float]. *)
Inductive pynum : Type :=
| PyInt (n : Z)
| PyFloat (f : float).

(** [-1 * a] *)
Definition py_neg1_mul (a : pynum) : pynum :=
  match a with
  | PyInt n => PyInt (-1 * n)
  | PyFloat f => PyFloat (-1 * f)%float
  end.

(** Python's [int(a)]. *)
Definition py_int (a : pynum) : result Z :=
  match a with
  | PyInt n => Ok n
  | PyFloat f =>
      match Prim2SF f with
      | S754_nan => Raise ValueError
      | S754_infinity _ => Raise OverflowError
      | _ => Ok (match float_trunc f with Some z => z | None => 0 end)
      end
  end.

(** The rational value of a Python number; [None] for an infinity or a NaN. *)
Definition pynum_value (a : pynum) : option Q :=
  match a with
  | PyInt n => Some (inject_Z n)
  | PyFloat f => float_value f
  end.

(** ** Python slicing and NumPy array operations *)

(** CPython's adjustment of one slice bound against a sequence of length [n]
    (step 1): a negative bound counts from the end, then it is clamped. *)
Definition slice_index (n i : Z) : Z :=
  if i <? 0 then Z.max 0 (i + n) else Z.min i n.

(** [l[a:b]] *)
Definition py_slice {A : Type} (l : list A) (a b : Z) : list A :=
  let n := Z.of_nat (length l) in
  let lo := slice_index n a in
  let hi := slice_index n b in
  firstn (Z.to_nat (hi - lo)) (skipn (Z.to_nat lo) l).

(** [np.sum] of an int64 array: the accumulator is an int64. *)
Definition np_sum (a : list Z) : Z := fold_left Int64.add a 0.

(** The exact (unbounded) sum, used to state what [np_sum] computes. *)
Definition zsum (a : list Z) : Z := fold_right Z.add 0 a.

(** [np.zeros((n,))] as a float64 array. *)
Definition np_zeros (n : nat) : list float := repeat 0%float n.

(** The sample index [j] as a float64. *)
Definition float_of_index (j : nat) : float :=
  of_uint63 (Uint63.of_Z (Z.of_nat j)).

(** [np.indices((length,), dtype=float)[0]]: the array [0., 1., ...]. *)
Definition np_indices (length : nat) : list float :=
  map float_of_index (seq 0 length).

(** Elementwise binary operation on two arrays of one shape. *)
Definition zip_with {A B C : Type} (f : A -> B -> C) (a : list A) (b : list B)
  : list C :=
  map (fun ab => f (fst ab) (snd ab)) (combine a b).

(** [a + b] on two one-dimensional int64 arrays, with NumPy's broadcasting:
    equal lengths add elementwise, a length-1 operand is stretched. *)
Definition np_add (a b : list Z) : result (list Z) :=
  if (length a =? length b)%nat then Ok (zip_with Int64.add a b)
  else match a, b with
       | [u], _ => Ok (map (fun v => Int64.add u v) b)
       | _, [v] => Ok (map (fun u => Int64.add u v) a)
       | _, _ => Raise ValueError
       end.

(** [a += b]: as [a + b], but the result must have the shape of [a]. *)
Definition np_iadd (a b : list Z) : result (list Z) :=
  if (length a =? length b)%nat then Ok (zip_with Int64.add a b)
  else match b with
       | [v] => Ok (map (fun u => Int64.add u v) a)
       | _ => Raise ValueError
       end.

(** [a + k] for a Python int [k]. *)
Definition np_add_scalar (a : list Z) (k : Z) : list Z :=
  map (fun u => Int64.add u k) a.

(** The number of samples on which [pulse_model] evaluates the exponentials:
    the length of [i[:i.size - start]] for an index array of [length]. *)
Definition pulse_samples (length start : nat) : nat :=
  Nat.min
    (Z.to_nat (slice_index (Z.of_nat length) (Z.of_nat length - Z.of_nat start)))
    length.

(** ** The histogram *)

(** [np.zeros(16384)], the counts kept as integers (the float64 counts of the
    source are exact up to 2^53). *)
Definition hist_zeros (n : nat) : list Z := repeat 0 n.

Fixpoint incr_at (k : nat) (h : list Z) : list Z :=
  match h, k with
  | [], _ => []
  | c :: h', O => (c + 1) :: h'
  | c :: h', S k' => c :: incr_at k' h'
  end.

(** [h[i] += 1] for an integer index [i]: a negative index counts from the
    end, an index outside [[-len, len)] raises IndexError. *)
Definition hist_incr (h : list Z) (i : Z) : result (list Z) :=
  let n := Z.of_nat (length h) in
  if (0 <=? i) && (i <? n) then Ok (incr_at (Z.to_nat i) h)
  else if (- n <=? i) && (i <? 0) then Ok (incr_at (Z.to_nat (i + n)) h)
  else Raise IndexError.

(** The bin that [h[i] += 1] increments, for [i] in [[-len, len)]. *)
Definition bin_of (len : nat) (i : Z) : nat :=
  Z.to_nat (if i <? 0 then i + Z.of_nat len else i).

(** ** The script's parameters *)

Record params : Type := {
  tlen : nat;          (* duration of the signal *)
  ppos : nat;          (* the pulse starts at this sample *)
  mvbin : float;       (* conversion factor for heights *)
  dtau : float;        (* time constant tau1 *)
  rtau : float;        (* time constant tau2 *)
  nlev : float;        (* scaling factor of the noise amplitude *)
  start_index : Z;     (* summing region *)
  end_index : Z
}.

(** The values of the source. *)
Definition script : params :=
  {| tlen := 100000; ppos := 50000; mvbin := (1.0 / 0.122)%float;
     dtau := 5000%float; rtau := 2%float; nlev := 2%float;
     start_index := 50032; end_index := 50096 |}.

(** ** Energy extraction (lines 103 and 113) *)

(** [np.sum(x[start_index:end_index]) >> 6] *)
Definition h1_energy (p : params) (x : list Z) : Z :=
  Int64.shr (np_sum (py_slice x (start_index p) (end_index p))) 6.

(** [np.sum(x[start_index:end_index])
      - np.sum(x[start_index-1000:end_index-1000]) >> 6]:
    in Python [-] binds tighter than [>>]. *)
Definition h2_energy (p : params) (x : list Z) : Z :=
  Int64.shr
    (Int64.sub (np_sum (py_slice x (start_index p) (end_index p)))
               (np_sum (py_slice x (start_index p - 1000) (end_index p - 1000))))
    6.

(** ** Signal generation *)

Section Model.

(** [np.exp] on one element. *)
Variable exp : float -> float.

(** The raw draws of the pseudorandom source. *)
Variable raw : nat -> Z.

Definition np_exp (a : list float) : list float := map exp a.

(** The value of the pulse [t] samples after its start (lines 24-26, one
    element of the array expression). *)
Definition pulse_value (c height tau1 tau2 t : float) : float :=
  (c * height * (exp (- t / tau1) - exp (- t / tau2)))%float.

(** [pulse_model(i, tau1, tau2, height, start)] *)
Definition pulse_model (i : list float) (tau1 tau2 height : float) (start : nat)
  : result (list float) :=
  let leading_zeros := np_zeros start in
  c <~ py_truediv tau1 (tau1 - tau2)%float ;;
  let t := py_slice i 0 (Z.of_nat (length i) - Z.of_nat start) in
  let pulse_signal :=
    map (fun d => (c * height * d)%float)
        (zip_with PrimFloat.sub
           (np_exp (map (fun v => (- v / tau1)%float) t))
           (np_exp (map (fun v => (- v / tau2)%float) t))) in
  Ok (leading_zeros ++ pulse_signal).

(** [pulse(length, start, height, tau1, tau2)]: [np.fromfunction] calls
    [pulse_model] once on the whole index array and returns its result. *)
Definition pulse (length start : nat) (height tau1 tau2 : float)
  : result (list Z) :=
  y <~ pulse_model (np_indices length) tau1 tau2 height start ;;
  Ok (map astype_int y).

(** Computations that draw from the random source: the cursor goes in and,
    unless an exception is raised, comes out. *)
Definition M (A : Type) : Type := nat -> result (A * nat).

Definition ret {A : Type} (a : A) : M A := fun c => Ok (a, c).

Definition mbind {A B : Type} (m : M A) (k : A -> M B) : M B :=
  fun c => match m c with
           | Ok (a, c') => k a c'
           | Raise e => Raise e
           end.

Definition lift {A : Type} (r : result A) : M A :=
  fun c => match r with
           | Ok a => Ok (a, c)
           | Raise e => Raise e
           end.

Notation "x <- m ;; k" := (mbind m (fun x => k))
  (at level 61, m at next level, right associativity).

(** [size] integers, each in [[lo, hi)], from the next [size] draws. *)
Definition draw (lo hi : Z) (size : nat) : M (list Z) :=
  fun c => Ok (map (fun j => lo + raw (c + j) mod (hi - lo)) (seq 0 size),
               (c + size)%nat).

(** [np.random.randint(low, high, (size,))] with the default dtype int64:
    an empty request returns at once; otherwise both bounds go through
    [int()], and a bound outside int64 or an empty range raises ValueError. *)
Definition randint (low high : pynum) (size : nat) : M (list Z) :=
  if (size =? 0)%nat then ret []
  else
    lo <- lift (py_int low) ;;
    hi <- lift (py_int high) ;;
    if lo <? Int64.min_int then lift (Raise ValueError)
    else if hi - 1 >? Int64.max_int then lift (Raise ValueError)
    else if lo >? hi - 1 then lift (Raise ValueError)
    else draw lo hi size.

(** [noise(length, amplitude)] *)
Definition noise (length : nat) (amplitude : pynum) : M (list Z) :=
  randint (py_neg1_mul amplitude) amplitude length.

(** ** The script *)

Definition height_of (p : params) : float := (1.332 * 200 * mvbin p)%float.

Definition amplitude_of (p : params) : pynum := PyFloat (nlev p * mvbin p)%float.

(** [pulse(tlen, ppos, 1.332*200*mvbin, dtau, rtau)
     + noise(x.size, nlev*mvbin) + 8192], where [x] is the previous signal. *)
Definition synthesize (p : params) (x : list Z) : M (list Z) :=
  s <- lift (pulse (tlen p) (ppos p) (height_of p) (dtau p) (rtau p)) ;;
  n <- noise (length x) (amplitude_of p) ;;
  sn <- lift (np_add s n) ;;
  ret (np_add_scalar sn 8192).

(** Lines 50-79: the first signal, built in place. *)
Definition first_signal (p : params) : M (list Z) :=
  x <- lift (pulse (tlen p) (ppos p) (height_of p) (dtau p) (rtau p)) ;;
  n <- noise (length x) (amplitude_of p) ;;
  x <- lift (np_iadd x n) ;;
  ret (np_add_scalar x 8192).

(** One of the two histogram loops, [n] iterations: each synthesises a
    signal, extracts its energy with [energy] and increments that bin.
    Returns the last signal and the histogram. *)
Fixpoint hist_loop (p : params) (energy : list Z -> Z) (n : nat)
  (x h : list Z) : M (list Z * list Z) :=
  match n with
  | O => ret (x, h)
  | S n' =>
      x' <- synthesize p x ;;
      h' <- lift (hist_incr h (energy x')) ;;
      hist_loop p energy n' x' h'
  end.

(** Lines 100-104 and 110-114. *)
Definition h1_loop (p : params) : nat -> list Z -> list Z -> M (list Z * list Z) :=
  hist_loop p (h1_energy p).

Definition h2_loop (p : params) : nat -> list Z -> list Z -> M (list Z * list Z) :=
  hist_loop p (h2_energy p).

(** The whole script: the final signal and the two histograms. *)
Definition main (p : params) : M (list Z * list Z * list Z) :=
  x <- first_signal p ;;
  xh1 <- h1_loop p 300 x (hist_zeros 16384) ;;
  xh2 <- h2_loop p 300 (fst xh1) (hist_zeros 16384) ;;
  ret (fst xh2, snd xh1, snd xh2).

(** ** The trials of a loop, for stating what the histograms count *)

(** The signals that [n] consecutive iterations synthesise. *)
Fixpoint trial_signals (p : params) (n : nat) (x : list Z) : M (list (list Z)) :=
  match n with
  | O => ret []
  | S n' =>
      x' <- synthesize p x ;;
      rest <- trial_signals p n' x' ;;
      ret (x' :: rest)
  end.

(** The signals of the first loop of the script, and those of the second. *)
Definition h1_trials (p : params) : M (list (list Z)) :=
  x <- first_signal p ;;
  trial_signals p 300 x.

Definition h2_trials (p : params) : M (list (list Z)) :=
  x <- first_signal p ;;
  sigs1 <- trial_signals p 300 x ;;
  trial_signals p 300 (last sigs1 x).

(** Recording a list of energies, one after the other. *)
Fixpoint record_all (h : list Z) (es : list Z) : result (list Z) :=
  match es with
  | [] => Ok h
  | e :: es' => h' <~ hist_incr h e ;; record_all h' es'
  end.

End Model.

(** The value of a run that completes; empty defaults otherwise. *)
Definition signals_of (r : result (list (list Z) * nat)) : list (list Z) :=
  match r with
  | Ok (sigs, _) => sigs
  | Raise _ => []
  end.

Definition histograms_of (r : result (list Z * list Z * list Z * nat))
  : list Z * list Z :=
  match r with
  | Ok (_, h1, h2, _) => (h1, h2)
  | Raise _ => ([], [])
  end.

(** ** Example inputs *)

(** The exponential at the arguments the examples below evaluate it at: the
    special values fixed by IEEE 754 and C (exp(+-0) = 1, exp(-inf) = 0,
    exp(NaN) = NaN) and the correctly rounded values of e^x at a few points;
    NaN marks an argument that is not tabulated. *)
Definition exp_table (x : float) : float :=
  if is_zero x then 1
  else if (x =? -0.25)%float then 0.7788007830714049
  else if (x =? -0.5)%float then 0.6065306597126334
  else if (x =? -0.75)%float then 0.4723665527410147
  else if (x =? -1)%float then 0.36787944117144233
  else if (x =? -1.5)%float then 0.22313016014842982
  else if (x =? -2)%float then 0.1353352832366127
  else if (x =? neg_infinity)%float then 0
  else if (x =? infinity)%float then infinity
  else nan.

(** A source whose [k]-th raw draw is [k]. *)
Definition counting_draws (k : nat) : Z := Z.of_nat k.

(** A short run: 4 samples, pulse at sample 2, window [[2,4)]. *)
Definition short_params : params :=
  {| tlen := 4; ppos := 2; mvbin := 64%float; dtau := 2%float; rtau := 1%float;
     nlev := 2%float; start_index := 2; end_index := 4 |}.

(** A window of 2 samples whose lagged window (1000 samples earlier) also
    exists. *)
Definition lagged_params : params :=
  {| tlen := 1004; ppos := 1002; mvbin := 1%float; dtau := 2%float;
     rtau := 1%float; nlev := 2%float; start_index := 1002; end_index := 1004 |}.

(** A run whose noise outweighs the pulse: amplitude 3, height about 2.7. *)
Definition noisy_params : params :=
  {| tlen := 1004; ppos := 1002; mvbin := 0.01%float; dtau := 2%float;
     rtau := 1%float; nlev := 300%float; start_index := 1002; end_index := 1004 |}.

(** The signal the noisy run synthesises first, from cursor 0. *)
Definition noisy_signal : list Z :=
  Eval vm_compute in
    match synthesize exp_table counting_draws noisy_params (repeat 0 1004) 0%nat with
    | Ok (x', _) => x'
    | Raise _ => []
    end.

(** A run whose pulse is far above the 14-bit range of the histogram. *)
Definition loud_params : params :=
  {| tlen := 4; ppos := 2; mvbin := 64000%float; dtau := 2%float;
     rtau := 1%float; nlev := 2%float; start_index := 2; end_index := 4 |}.

(** A summing region within the first 1000 samples, so that the lagged
    window has negative bounds. *)
Definition early_params : params :=
  {| tlen := 2000; ppos := 400; mvbin := 1%float; dtau := 2%float;
     rtau := 1%float; nlev := 2%float; start_index := 500; end_index := 564 |}.

(** The ramp 0, 1, ..., 1999. *)
Definition ramp_signal : list Z := map Z.of_nat (seq 0 2000).



(** * Properties *)

(** ** int64 facts *)

Lemma wrap_in_range (z : Z) : Int64.in_range (Int64.wrap z).
Proof.
  unfold Int64.in_range, Int64.wrap, Int64.min_int, Int64.max_int.
  pose proof (Z.mod_pos_bound (z + 2 ^ 63) (2 ^ 64) ltac:(lia)). lia.
Qed.

Lemma wrap_small (z : Z) : Int64.in_range z -> Int64.wrap z = z.
Proof.
  unfold Int64.in_range, Int64.wrap, Int64.min_int, Int64.max_int. intros H.
  rewrite Z.mod_small by lia. lia.
Qed.

Lemma wrap_add_l (a b : Z) : Int64.wrap (Int64.wrap a + b) = Int64.wrap (a + b).
Proof.
  unfold Int64.wrap. f_equal.
  replace ((a + 2 ^ 63) mod 2 ^ 64 - 2 ^ 63 + b + 2 ^ 63)
    with ((a + 2 ^ 63) mod 2 ^ 64 + b) by lia.
  rewrite Zplus_mod_idemp_l. f_equal. lia.
Qed.

Lemma wrap_add_r (a b : Z) : Int64.wrap (a + Int64.wrap b) = Int64.wrap (a + b).
Proof. rewrite Z.add_comm, wrap_add_l. f_equal. lia. Qed.

Lemma wrap_sub_l (a b : Z) : Int64.wrap (Int64.wrap a - b) = Int64.wrap (a - b).
Proof. unfold Z.sub. apply wrap_add_l. Qed.

Lemma wrap_opp (b : Z) : Int64.wrap (- Int64.wrap b) = Int64.wrap (- b).
Proof.
  unfold Int64.wrap. f_equal.
  set (m := 2 ^ 64). replace (2 ^ 63) with (m / 2) by reflexivity.
  assert (Hm : m = 2 * (m / 2)) by reflexivity.
  assert (Hpos : 0 < m) by reflexivity.
  generalize dependent (m / 2). intros h Hm.
  replace (- ((b + h) mod m - h) + h) with (m - (b + h) mod m) by lia.
  rewrite Zminus_mod_idemp_r.
  replace (m - (b + h)) with (- b + h + 0 * m) by lia.
  rewrite Z.add_0_r. reflexivity.
Qed.

Lemma wrap_sub_r (a b : Z) : Int64.wrap (a - Int64.wrap b) = Int64.wrap (a - b).
Proof.
  unfold Z.sub. rewrite <- wrap_add_r, wrap_opp, wrap_add_r. reflexivity.
Qed.

Lemma wrap_wrap (z : Z) : Int64.wrap (Int64.wrap z) = Int64.wrap z.
Proof. apply wrap_small, wrap_in_range. Qed.

Lemma fold_add_wrap (a : list Z) (acc : Z) :
  fold_left Int64.add a (Int64.wrap acc) = Int64.wrap (acc + zsum a).
Proof.
  revert acc. induction a as [|v a IH]; intros acc; simpl.
  - rewrite Z.add_0_r. reflexivity.
  - unfold Int64.add at 2. rewrite wrap_add_l, IH. f_equal. lia.
Qed.

(** [np.sum] is the exact sum, wrapped once. *)
Lemma np_sum_wrap (a : list Z) : np_sum a = Int64.wrap (zsum a).
Proof.
  unfold np_sum. change 0 with (Int64.wrap 0) at 1.
  rewrite fold_add_wrap. reflexivity.
Qed.

Lemma shr_floor (a n : Z) : 0 <= n -> Int64.shr a n = a / 2 ^ n.
Proof. intros Hn. unfold Int64.shr. apply Z.shiftr_div_pow2, Hn. Qed.

(** When the exact difference of the two window sums fits in 64 bits, as it
    does for the 64-sample windows of 14-bit signals, nothing wraps. *)
Lemma h2_energy_exact (p : params) (x : list Z) :
  Int64.in_range
    (zsum (py_slice x (start_index p) (end_index p))
     - zsum (py_slice x (start_index p - 1000) (end_index p - 1000))) ->
  h2_energy p x
  = (zsum (py_slice x (start_index p) (end_index p))
     - zsum (py_slice x (start_index p - 1000) (end_index p - 1000))) / 64.
Proof.
  intros Hr. unfold h2_energy, Int64.sub.
  rewrite !np_sum_wrap, wrap_sub_l, wrap_sub_r, (wrap_small _ Hr).
  rewrite shr_floor by lia. reflexivity.
Qed.

(** ** C1 *)

(** C1: the subtracted-sum energy of every signal is the difference of the
    two windowed sums (window [start_index:end_index] minus the window 1000
    samples earlier), as an int64, shifted right by 6 as a whole; shifting
    only the second sum gives a different value. *)
Theorem h2_energy_shifts_the_difference :
  (forall (p : params) (x : list Z),
      h2_energy p x =
      Z.shiftr
        (Int64.wrap
           (zsum (py_slice x (start_index p) (end_index p))
            - zsum (py_slice x (start_index p - 1000) (end_index p - 1000))))
        6)
  /\ (exists (p : params) (x : list Z),
         h2_energy p x <>
         Int64.sub (np_sum (py_slice x (start_index p) (end_index p)))
                   (Int64.shr (np_sum (py_slice x (start_index p - 1000)
                                                (end_index p - 1000))) 6)).
Proof.
  split.
  - intros p x. unfold h2_energy, Int64.shr, Int64.sub.
    rewrite !np_sum_wrap, wrap_sub_l, wrap_sub_r. reflexivity.
  - exists lagged_params, (repeat 100 1004).
    vm_compute. discriminate.
Qed.


(** ** C2 *)

(** C2: the quantisation [S >> 6] of both extraction variants is the floor
    division of [S] by 64, for every integer [S] of either sign (the quotient
    [q] with [64 q <= S < 64 q + 64]); 130 gives 2, and -130 gives -3 where
    truncating division would give -2. *)
Theorem shift_quantization_is_floor_division :
  (forall S : Z,
      Int64.shr S 6 = S / 64
      /\ 64 * Int64.shr S 6 <= S < 64 * Int64.shr S 6 + 64)
  /\ (forall (p : params) (x : list Z),
         h1_energy p x
         = np_sum (py_slice x (start_index p) (end_index p)) / 64)
  /\ (forall (p : params) (x : list Z),
         h2_energy p x
         = Int64.sub (np_sum (py_slice x (start_index p) (end_index p)))
                     (np_sum (py_slice x (start_index p - 1000)
                                       (end_index p - 1000))) / 64)
  /\ Int64.shr 130 6 = 2
  /\ h1_energy short_params [0; 0; 65; 65] = 2
  /\ Int64.shr (-130) 6 = -3
  /\ Z.quot (-130) 64 = -2.
Proof.
  assert (Hshr : forall S, Int64.shr S 6 = S / 64).
  { intros S. rewrite shr_floor by lia. reflexivity. }
  repeat split; try reflexivity.
  - apply Hshr.
  - rewrite Hshr. pose proof (Z.mul_div_le S 64 ltac:(lia)). lia.
  - rewrite Hshr. pose proof (Z.mul_succ_div_gt S 64 ltac:(lia)). lia.
  - intros p x. apply Hshr.
  - intros p x. apply Hshr.
Qed.

(** ** The histogram *)

Lemma incr_at_length (k : nat) (h : list Z) : length (incr_at k h) = length h.
Proof.
  revert k. induction h as [|c h IH]; intros [|k]; simpl; auto.
Qed.

Lemma incr_at_zsum (k : nat) (h : list Z) :
  (k < length h)%nat -> zsum (incr_at k h) = zsum h + 1.
Proof.
  revert k. induction h as [|c h IH]; intros [|k] Hk; simpl in *; try lia.
  rewrite IH by lia. lia.
Qed.

Lemma incr_at_nth (k j : nat) (h : list Z) :
  (k < length h)%nat ->
  nth j (incr_at k h) 0 = if (j =? k)%nat then nth j h 0 + 1 else nth j h 0.
Proof.
  revert k j. induction h as [|c h IH]; intros [|k] [|j] Hk; simpl in *;
    try lia; try reflexivity.
  apply IH. lia.
Qed.

Lemma incr_at_nonneg (k : nat) (h : list Z) :
  Forall (fun v => 0 <= v) h -> Forall (fun v => 0 <= v) (incr_at k h).
Proof.
  intros H. revert k. induction H as [|c h Hc Hh IH]; intros [|k]; simpl;
    constructor; auto; lia.
Qed.

Lemma hist_incr_ok (h : list Z) (i : Z) :
  - Z.of_nat (length h) <= i < Z.of_nat (length h) ->
  hist_incr h i = Ok (incr_at (bin_of (length h) i) h)
  /\ (bin_of (length h) i < length h)%nat.
Proof.
  intros Hi. unfold hist_incr, bin_of.
  destruct (Z.ltb_spec i 0) as [Hneg|Hpos].
  - replace (0 <=? i) with false by (symmetry; apply Z.leb_gt; lia).
    simpl. replace (- Z.of_nat (length h) <=? i) with true
      by (symmetry; apply Z.leb_le; lia).
    simpl. split; [reflexivity | lia].
  - replace (0 <=? i) with true by (symmetry; apply Z.leb_le; lia).
    replace (i <? Z.of_nat (length h)) with true
      by (symmetry; apply Z.ltb_lt; lia).
    simpl. split; [reflexivity | lia].
Qed.

Lemma hist_incr_out_of_range (h : list Z) (i : Z) :
  i < - Z.of_nat (length h) \/ Z.of_nat (length h) <= i ->
  hist_incr h i = Raise IndexError.
Proof.
  intros Hi. unfold hist_incr.
  destruct (Z.leb_spec 0 i), (Z.ltb_spec i (Z.of_nat (length h))),
    (Z.leb_spec (- Z.of_nat (length h)) i), (Z.ltb_spec i 0);
    simpl; try reflexivity; lia.
Qed.

Lemma record_all_ok (es : list Z) : forall h : list Z,
  Forall (fun e => - Z.of_nat (length h) <= e < Z.of_nat (length h)) es ->
  exists h', record_all h es = Ok h'
             /\ length h' = length h
             /\ zsum h' = zsum h + Z.of_nat (length es)
             /\ (Forall (fun v => 0 <= v) h -> Forall (fun v => 0 <= v) h').
Proof.
  induction es as [|e es IH]; intros h Hes.
  - exists h. simpl. repeat split; auto; lia.
  - inversion Hes as [|? ? He Hes']; subst.
    destruct (hist_incr_ok h e He) as [Hinc Hbin].
    destruct (IH (incr_at (bin_of (length h) e) h)) as (h' & Hrec & Hlen & Hsum & Hnn).
    { rewrite incr_at_length. exact Hes'. }
    exists h'. cbn [record_all]. rewrite Hinc. cbn [bind].
    rewrite incr_at_length in Hlen. rewrite incr_at_zsum in Hsum by exact Hbin.
    repeat split; auto.
    + cbn [length]. lia.
    + intros H0. apply Hnn, incr_at_nonneg, H0.
Qed.

Lemma hist_zeros_length (n : nat) : length (hist_zeros n) = n.
Proof. apply repeat_length. Qed.

Lemma hist_zeros_zsum (n : nat) : zsum (hist_zeros n) = 0.
Proof. induction n as [|n IH]; simpl; auto. Qed.

Lemma hist_zeros_nonneg (n : nat) : Forall (fun v => 0 <= v) (hist_zeros n).
Proof. induction n as [|n IH]; simpl; constructor; auto; lia. Qed.

Lemma hist_incr_inv (h h' : list Z) (i : Z) :
  hist_incr h i = Ok h' ->
  - Z.of_nat (length h) <= i < Z.of_nat (length h).
Proof.
  unfold hist_incr.
  destruct (Z.leb_spec 0 i), (Z.ltb_spec i (Z.of_nat (length h))),
    (Z.leb_spec (- Z.of_nat (length h)) i), (Z.ltb_spec i 0);
    cbn [andb]; intros Hok; try discriminate; lia.
Qed.

Lemma hist_incr_cases (h : list Z) (i : Z) :
  (hist_incr h i = Ok (incr_at (bin_of (length h) i) h)
   /\ (bin_of (length h) i < length h)%nat)
  \/ hist_incr h i = Raise IndexError.
Proof.
  destruct (Z_lt_dec i (- Z.of_nat (length h))) as [Hlo|Hlo].
  { right. apply hist_incr_out_of_range. lia. }
  destruct (Z_le_dec (Z.of_nat (length h)) i) as [Hhi|Hhi].
  { right. apply hist_incr_out_of_range. lia. }
  left. apply hist_incr_ok. lia.
Qed.

Lemma record_all_total (es : list Z) : forall h h' : list Z,
  record_all h es = Ok h' ->
  zsum h' = zsum h + Z.of_nat (length es)
  /\ (Forall (fun v => 0 <= v) h -> Forall (fun v => 0 <= v) h').
Proof.
  induction es as [|e es IH]; intros h h' Hrec.
  - cbn in Hrec. injection Hrec as <-. split; [cbn; lia | auto].
  - cbn [record_all] in Hrec.
    destruct (hist_incr_cases h e) as [[Hinc Hbin]|Hinc];
      rewrite Hinc in Hrec; [|discriminate].
    cbn [bind] in Hrec. destruct (IH _ _ Hrec) as [Hsum Hnn].
    rewrite incr_at_zsum in Hsum by exact Hbin. split.
    + cbn [length]. lia.
    + intros H0. apply Hnn, incr_at_nonneg, H0.
Qed.

(** ** The histogram loops *)

(** In [H : (x <- m ;; k) c = Ok r], name the result [a] and the cursor [c']
    of [m], with [E : m c = Ok (a, c')]. *)
Ltac bind_ok H a c' E :=
  unfold mbind at 1 in H;
  lazymatch type of H with
  | match ?m with Ok _ => _ | Raise _ => _ end = _ =>
      destruct m as [[a c']|?] eqn:E; [|discriminate H]
  end.

Section Loops.

Variable exp : float -> float.
Variable raw : nat -> Z.
Variable p : params.

Lemma last_cons {A : Type} (l : list A) : forall a d : A,
  last (a :: l) d = last l a.
Proof.
  induction l as [|b l IH]; intros a d; [reflexivity|].
  change (last (a :: b :: l) d) with (last (b :: l) d).
  rewrite (IH b d), (IH b a). reflexivity.
Qed.

Lemma hist_loop_step (energy : list Z -> Z) (n : nat) (x h x' : list Z)
  (c c' : nat) :
  synthesize exp raw p x c = Ok (x', c') ->
  hist_loop exp raw p energy (S n) x h c
  = match hist_incr h (energy x') with
    | Ok h' => hist_loop exp raw p energy n x' h' c'
    | Raise e => Raise e
    end.
Proof.
  intros Hs. cbn [hist_loop]. unfold mbind at 1. rewrite Hs.
  unfold mbind, lift. destruct (hist_incr h (energy x')); reflexivity.
Qed.

(** A loop that completes has recorded the energy of each signal it
    synthesised, in order. *)
Lemma hist_loop_trace (energy : list Z -> Z) (n : nat) :
  forall (x h x' h' : list Z) (c c' : nat),
  hist_loop exp raw p energy n x h c = Ok ((x', h'), c') ->
  exists sigs,
    trial_signals exp raw p n x c = Ok (sigs, c')
    /\ record_all h (map energy sigs) = Ok h'
    /\ x' = last sigs x.
Proof.
  induction n as [|n IH]; intros x h x' h' c c' Hrun.
  - cbn in Hrun. injection Hrun as -> -> ->. exists []. auto.
  - destruct (synthesize exp raw p x c) as [[x1 c1]|e] eqn:Hs.
    + rewrite (hist_loop_step energy n x h x1 c c1 Hs) in Hrun.
      destruct (hist_incr h (energy x1)) as [h1|e] eqn:Hinc; [|discriminate].
      destruct (IH _ _ _ _ _ _ Hrun) as (sigs & Htr & Hrec & Hlast).
      exists (x1 :: sigs). cbn [trial_signals]. unfold mbind at 1. rewrite Hs.
      unfold mbind at 1. rewrite Htr. cbn [ret map record_all].
      rewrite Hinc. cbn [bind]. repeat split; auto.
      subst x'. symmetry. apply last_cons.
    + cbn [hist_loop] in Hrun. unfold mbind at 1 in Hrun. rewrite Hs in Hrun.
      discriminate.
Qed.

(** Conversely the loop completes when its signals can be synthesised and
    their energies recorded. *)
Lemma hist_loop_complete (energy : list Z -> Z) (n : nat) :
  forall (x h h' : list Z) (sigs : list (list Z)) (c c' : nat),
  trial_signals exp raw p n x c = Ok (sigs, c') ->
  record_all h (map energy sigs) = Ok h' ->
  hist_loop exp raw p energy n x h c = Ok ((last sigs x, h'), c').
Proof.
  induction n as [|n IH]; intros x h h' sigs c c' Htr Hrec.
  - cbn in Htr. injection Htr as <- <-. cbn in Hrec. injection Hrec as <-.
    reflexivity.
  - cbn [trial_signals] in Htr.
    bind_ok Htr x1 c1 Hs. bind_ok Htr rest c2 Hrest.
    cbn in Htr. injection Htr as <- <-.
    cbn [map record_all] in Hrec.
    destruct (hist_incr h (energy x1)) as [h1|e] eqn:Hinc; [|discriminate].
    cbn [bind] in Hrec.
    rewrite (hist_loop_step energy n x h x1 c c1 Hs), Hinc.
    rewrite (IH x1 h1 h' rest c1 c2 Hrest Hrec), last_cons. reflexivity.
Qed.

Lemma trial_signals_length (n : nat) :
  forall (x : list Z) (sigs : list (list Z)) (c c' : nat),
  trial_signals exp raw p n x c = Ok (sigs, c') -> length sigs = n.
Proof.
  induction n as [|n IH]; intros x sigs c c' Htr.
  - cbn in Htr. injection Htr as <- <-. reflexivity.
  - cbn [trial_signals] in Htr.
    bind_ok Htr x1 c1 Hs. bind_ok Htr rest c2 Hrest.
    cbn in Htr. injection Htr as <- <-. cbn [length]. f_equal. eauto.
Qed.

(** A loop that completes has added one count for each of its trials. *)
Lemma hist_loop_total (energy : list Z -> Z) (n : nat)
  (x h x' h' : list Z) (c c' : nat) :
  hist_loop exp raw p energy n x h c = Ok ((x', h'), c') ->
  zsum h' = zsum h + Z.of_nat n.
Proof.
  intros Hrun.
  destruct (hist_loop_trace energy n x h x' h' c c' Hrun)
    as (sigs & Htr & Hrec & _).
  destruct (record_all_total _ _ _ Hrec) as [Hsum _].
  rewrite length_map, (trial_signals_length n x sigs c c' Htr) in Hsum.
  exact Hsum.
Qed.

(** A loop over trials whose energies index the histogram counts them all. *)
Lemma hist_loop_counts (energy : list Z -> Z) (n : nat) (x : list Z)
  (sigs : list (list Z)) (c c' : nat) :
  trial_signals exp raw p n x c = Ok (sigs, c') ->
  Forall (fun s => 0 <= energy s < 16384) sigs ->
  exists x' h,
    hist_loop exp raw p energy n x (hist_zeros 16384) c = Ok ((x', h), c')
    /\ length h = 16384%nat
    /\ zsum h = Z.of_nat n
    /\ Forall (fun v => 0 <= v) h.
Proof.
  intros Htr Hin.
  destruct (record_all_ok (map energy sigs) (hist_zeros 16384))
    as (h & Hrec & Hlen & Hsum & Hnn).
  { rewrite hist_zeros_length. apply Forall_map.
    eapply Forall_impl; [|exact Hin]. cbn beta. intros s Hs.
    change (Z.of_nat 16384) with 16384. lia. }
  exists (last sigs x), h.
  rewrite (hist_loop_complete energy n x _ h sigs c c' Htr Hrec).
  rewrite hist_zeros_length in Hlen. rewrite hist_zeros_zsum in Hsum.
  rewrite length_map, (trial_signals_length n x sigs c c' Htr) in Hsum.
  repeat split; auto. apply Hnn, hist_zeros_nonneg.
Qed.

End Loops.

(** ** C4 *)

(** C4: when the [n] signals of a batch can be synthesised and every energy
    computed from them lies in [[0, 16384)], the loop completes and the
    16384 counts of its histogram are non-negative and sum to [n] exactly;
    this holds for the plain-sum loop and for the subtracted-sum loop. *)
Theorem histogram_counts_sum_to_trials (exp : float -> float) (raw : nat -> Z)
  (p : params) (n : nat) (x : list Z) (sigs : list (list Z)) (c c' : nat) :
  trial_signals exp raw p n x c = Ok (sigs, c') ->
  (Forall (fun s => 0 <= h1_energy p s < 16384) sigs ->
   exists x' h1,
     h1_loop exp raw p n x (hist_zeros 16384) c = Ok ((x', h1), c')
     /\ length h1 = 16384%nat
     /\ zsum h1 = Z.of_nat n
     /\ Forall (fun v => 0 <= v) h1)
  /\ (Forall (fun s => 0 <= h2_energy p s < 16384) sigs ->
      exists x' h2,
        h2_loop exp raw p n x (hist_zeros 16384) c = Ok ((x', h2), c')
        /\ length h2 = 16384%nat
        /\ zsum h2 = Z.of_nat n
        /\ Forall (fun v => 0 <= v) h2).
Proof.
  intros Htr. split; intros Hin; unfold h1_loop, h2_loop;
    eapply hist_loop_counts; eassumption.
Qed.

(** The first signal of the short run, and the three trials after it. *)
Lemma histogram_counts_sum_to_trials_witness :
  exists x' h1,
    h1_loop exp_table counting_draws short_params 3
      [8064; 8065; 8066; 16204] (hist_zeros 16384) 4%nat
    = Ok ((x', h1), 16%nat)
    /\ length h1 = 16384%nat
    /\ zsum h1 = 3
    /\ Forall (fun v => 0 <= v) h1.
Proof.
  refine (proj1 (histogram_counts_sum_to_trials exp_table counting_draws
                   short_params 3 [8064; 8065; 8066; 16204]
                   [[8068; 8069; 8070; 16208]; [8072; 8073; 8074; 16212];
                    [8076; 8077; 8078; 16216]] 4 16 _) _).
  - vm_compute. reflexivity.
  - repeat constructor; vm_compute; congruence.
Defined.

(** ** C10 *)

(** C10: when a trial of the subtracted-sum loop computes a negative energy
    [e] with [-16384 <= e < 0], the update [h2[e] += 1] raises nothing and
    increments bin [16384 + e] by one, leaving the other bins as they are:
    a loop of that one trial returns the histogram so updated, its total one
    higher; and a longer loop goes on with the next trial and, when it
    completes, its histogram has counted this trial with all the others. *)
Theorem negative_energy_wraps_around (exp : float -> float) (raw : nat -> Z)
  (p : params) (n : nat) (x h x' : list Z) (c c' : nat) :
  length h = 16384%nat ->
  synthesize exp raw p x c = Ok (x', c') ->
  -16384 <= h2_energy p x' < 0 ->
  hist_incr h (h2_energy p x')
  = Ok (incr_at (Z.to_nat (16384 + h2_energy p x')) h)
  /\ nth (Z.to_nat (16384 + h2_energy p x'))
         (incr_at (Z.to_nat (16384 + h2_energy p x')) h) 0
     = nth (Z.to_nat (16384 + h2_energy p x')) h 0 + 1
  /\ (forall j : nat,
         j <> Z.to_nat (16384 + h2_energy p x') ->
         nth j (incr_at (Z.to_nat (16384 + h2_energy p x')) h) 0 = nth j h 0)
  /\ zsum (incr_at (Z.to_nat (16384 + h2_energy p x')) h) = zsum h + 1
  /\ h2_loop exp raw p (S n) x h c
     = h2_loop exp raw p n x' (incr_at (Z.to_nat (16384 + h2_energy p x')) h) c'
  /\ h2_loop exp raw p 1 x h c
     = Ok ((x', incr_at (Z.to_nat (16384 + h2_energy p x')) h), c')
  /\ (forall (x'' h'' : list Z) (c'' : nat),
         h2_loop exp raw p (S n) x h c = Ok ((x'', h''), c'') ->
         h2_loop exp raw p n x'
           (incr_at (Z.to_nat (16384 + h2_energy p x')) h) c'
         = Ok ((x'', h''), c'')
         /\ zsum h'' = zsum h + Z.of_nat (S n)).
Proof.
  intros Hlen Hs He.
  set (e := h2_energy p x') in *.
  assert (Hrange : - Z.of_nat (length h) <= e < Z.of_nat (length h))
    by (rewrite Hlen; change (Z.of_nat 16384) with 16384; lia).
  destruct (hist_incr_ok h e Hrange) as [Hinc Hbin].
  assert (Hk : bin_of (length h) e = Z.to_nat (16384 + e)).
  { unfold bin_of. replace (e <? 0) with true by (symmetry; apply Z.ltb_lt; lia).
    rewrite Hlen. change (Z.of_nat 16384) with 16384. f_equal. lia. }
  rewrite Hk in Hinc, Hbin.
  assert (Hstep : forall m,
             h2_loop exp raw p (S m) x h c
             = h2_loop exp raw p m x' (incr_at (Z.to_nat (16384 + e)) h) c').
  { intros m. unfold h2_loop.
    rewrite (hist_loop_step exp raw p _ m x h x' c c' Hs).
    fold e. rewrite Hinc. reflexivity. }
  split; [exact Hinc|]. split; [|split; [|split; [|split; [|split]]]].
  - rewrite incr_at_nth by exact Hbin. rewrite Nat.eqb_refl. reflexivity.
  - intros j Hj. rewrite incr_at_nth by exact Hbin.
    apply Nat.eqb_neq in Hj. rewrite Hj. reflexivity.
  - apply incr_at_zsum, Hbin.
  - apply Hstep.
  - rewrite Hstep. reflexivity.
  - intros x'' h'' c'' Hrun. split.
    + rewrite <- Hstep. exact Hrun.
    + apply (hist_loop_total exp raw p _ _ _ _ _ _ _ _ Hrun).
Qed.

(** In the noisy run the first trial has energy -1: a loop of that one
    trial returns the histogram with bin 16383 incremented, total 1. *)
Lemma negative_energy_wraps_around_witness :
  h2_energy noisy_params noisy_signal = -1
  /\ h2_loop exp_table counting_draws noisy_params 1 (repeat 0 1004)
       (hist_zeros 16384) 0%nat
     = Ok ((noisy_signal,
            incr_at (Z.to_nat (16384 + h2_energy noisy_params noisy_signal))
              (hist_zeros 16384)), 1004%nat)
  /\ zsum (incr_at (Z.to_nat (16384 + h2_energy noisy_params noisy_signal))
             (hist_zeros 16384))
     = zsum (hist_zeros 16384) + 1.
Proof.
  split; [vm_compute; reflexivity|].
  pose proof (negative_energy_wraps_around exp_table counting_draws
                noisy_params 0%nat (repeat 0 1004) (hist_zeros 16384)
                noisy_signal 0%nat 1004%nat) as H.
  destruct H as (_ & _ & _ & Hsum & _ & Hone & _).
  - vm_compute. reflexivity.
  - vm_compute. reflexivity.
  - vm_compute. split; congruence.
  - split; [exact Hone | exact Hsum].
Defined.

(** ** The pulse, sample by sample *)

Lemma zip_with_map_same {A B C D : Type} (f : B -> C -> D) (g : A -> B)
  (k : A -> C) (l : list A) :
  zip_with f (map g l) (map k l) = map (fun v => f (g v) (k v)) l.
Proof.
  unfold zip_with. induction l as [|a l IH]; simpl; [reflexivity|].
  f_equal. exact IH.
Qed.

Lemma firstn_seq (k : nat) : forall s n : nat,
  firstn k (seq s n) = seq s (Nat.min k n).
Proof.
  induction k as [|k IH]; intros s [|n]; simpl; try reflexivity.
  f_equal. apply IH.
Qed.

Lemma np_indices_length (n : nat) : length (np_indices n) = n.
Proof. unfold np_indices. rewrite length_map, length_seq. reflexivity. Qed.

Lemma py_slice_from_zero {A : Type} (l : list A) (b : Z) :
  py_slice l 0 b = firstn (Z.to_nat (slice_index (Z.of_nat (length l)) b)) l.
Proof.
  unfold py_slice. replace (slice_index (Z.of_nat (length l)) 0) with 0.
  - rewrite Z.sub_0_r. reflexivity.
  - unfold slice_index. simpl. lia.
Qed.

Lemma pulse_samples_delay (length start : nat) :
  (start <= length)%nat -> pulse_samples length start = (length - start)%nat.
Proof.
  intros H. unfold pulse_samples, slice_index.
  destruct (Z.ltb_spec (Z.of_nat length - Z.of_nat start) 0); lia.
Qed.

Lemma pulse_samples_late (length start : nat) :
  (length < start)%nat ->
  (start + pulse_samples length start = Nat.max start (2 * length))%nat.
Proof.
  intros H. unfold pulse_samples, slice_index.
  destruct (Z.ltb_spec (Z.of_nat length - Z.of_nat start) 0); lia.
Qed.

Section PulseFacts.

Variable exp : float -> float.

Lemma pulse_model_unfold (length start : nat) (height tau1 tau2 : float) :
  is_zero (tau1 - tau2) = false ->
  pulse_model exp (np_indices length) tau1 tau2 height start
  = Ok (np_zeros start
        ++ map (fun j => pulse_value exp (tau1 / (tau1 - tau2)) height tau1 tau2
                           (float_of_index j))
               (seq 0 (pulse_samples length start))).
Proof.
  intros Hnz. unfold pulse_model, py_truediv. rewrite Hnz. cbn [bind].
  f_equal. f_equal. unfold np_exp.
  rewrite !map_map, zip_with_map_same, map_map.
  rewrite py_slice_from_zero, np_indices_length.
  unfold np_indices. rewrite firstn_map, firstn_seq, map_map.
  reflexivity.
Qed.

(** The elements of the array [pulse] returns. *)
Lemma pulse_unfold (length start : nat) (height tau1 tau2 : float) :
  is_zero (tau1 - tau2) = false ->
  pulse exp length start height tau1 tau2
  = Ok (repeat 0 start
        ++ map (fun j => astype_int
                           (pulse_value exp (tau1 / (tau1 - tau2)) height
                              tau1 tau2 (float_of_index j)))
               (seq 0 (pulse_samples length start))).
Proof.
  intros Hnz. unfold pulse. rewrite pulse_model_unfold by exact Hnz.
  cbn [bind]. f_equal. rewrite map_app, map_map. f_equal.
  unfold np_zeros. rewrite map_repeat. reflexivity.
Qed.

Lemma pulse_equal_taus (length start : nat) (height tau1 tau2 : float) :
  is_zero (tau1 - tau2) = true ->
  pulse exp length start height tau1 tau2 = Raise ZeroDivisionError.
Proof.
  intros Hz. unfold pulse, pulse_model, py_truediv. rewrite Hz. reflexivity.
Qed.

Lemma pulse_length (length start : nat) (height tau1 tau2 : float) (y : list Z) :
  pulse exp length start height tau1 tau2 = Ok y ->
  List.length y = (start + pulse_samples length start)%nat.
Proof.
  intros Hy. destruct (is_zero (tau1 - tau2)) eqn:Hz.
  - rewrite pulse_equal_taus in Hy by exact Hz. discriminate.
  - rewrite pulse_unfold in Hy by exact Hz. injection Hy as <-.
    rewrite length_app, repeat_length, length_map, length_seq. reflexivity.
Qed.

Lemma pulse_delay_region (length start : nat) (height tau1 tau2 : float)
  (y : list Z) (k : nat) :
  pulse exp length start height tau1 tau2 = Ok y ->
  (k < start)%nat -> nth_error y k = Some 0.
Proof.
  intros Hy Hk. destruct (is_zero (tau1 - tau2)) eqn:Hz.
  - rewrite pulse_equal_taus in Hy by exact Hz. discriminate.
  - rewrite pulse_unfold in Hy by exact Hz. injection Hy as <-.
    rewrite nth_error_app1 by (rewrite repeat_length; exact Hk).
    apply nth_error_repeat, Hk.
Qed.

Lemma pulse_after_delay (length start : nat) (height tau1 tau2 : float)
  (y : list Z) (k : nat) :
  pulse exp length start height tau1 tau2 = Ok y ->
  (start <= k < start + pulse_samples length start)%nat ->
  nth_error y k
  = Some (astype_int (pulse_value exp (tau1 / (tau1 - tau2)) height tau1 tau2
                        (float_of_index (k - start)))).
Proof.
  intros Hy Hk. destruct (is_zero (tau1 - tau2)) eqn:Hz.
  - rewrite pulse_equal_taus in Hy by exact Hz. discriminate.
  - rewrite pulse_unfold in Hy by exact Hz. injection Hy as <-.
    rewrite nth_error_app2 by (rewrite repeat_length; lia).
    rewrite repeat_length, nth_error_map, nth_error_seq.
    replace (k - start <? pulse_samples length start)%nat with true
      by (symmetry; apply Nat.ltb_lt; lia).
    reflexivity.
Qed.

(** A pulse delayed past the end of the index array comes back longer than
    [length]. *)
Lemma pulse_length_late (length start : nat) (height tau1 tau2 : float)
  (y : list Z) :
  pulse exp length start height tau1 tau2 = Ok y ->
  (length < start)%nat ->
  List.length y = Nat.max start (2 * length).
Proof.
  intros Hy Hlt. rewrite (pulse_length _ _ _ _ _ _ Hy).
  apply pulse_samples_late, Hlt.
Qed.

Lemma pulse_length_delay (length start : nat) (height tau1 tau2 : float)
  (y : list Z) :
  pulse exp length start height tau1 tau2 = Ok y ->
  (start <= length)%nat ->
  List.length y = length.
Proof.
  intros Hy Hle. rewrite (pulse_length _ _ _ _ _ _ Hy).
  rewrite pulse_samples_delay by exact Hle. lia.
Qed.

End PulseFacts.

(** ** binary64 facts *)

Lemma is_zero_astype_int (f : float) : is_zero f = true -> astype_int f = 0.
Proof.
  unfold is_zero, astype_int, float_trunc.
  destruct (Prim2SF f); intros H; try discriminate. reflexivity.
Qed.

Lemma index_zero : float_of_index 0 = 0%float.
Proof. reflexivity. Qed.

(** [-0. / tau] is a zero unless [tau] is a zero or a NaN. *)
Lemma neg_zero_div (tau : float) :
  nonzero_number tau = true -> is_zero (- float_of_index 0 / tau) = true.
Proof.
  unfold nonzero_number, is_zero. rewrite index_zero, div_spec, opp_spec.
  change (Prim2SF 0) with (S754_zero false).
  destruct (Prim2SF tau); intros H; try discriminate; reflexivity.
Qed.

(** A finite float times a zero is a zero. *)
Lemma finite_mul_zero (a d : float) :
  is_finite a = true -> is_zero d = true -> is_zero (a * d) = true.
Proof.
  unfold is_finite, is_zero. rewrite mul_spec.
  destruct (Prim2SF a), (Prim2SF d); intros Ha Hd; try discriminate;
    reflexivity.
Qed.

Lemma Qtrunc_fraction (n : Z) (d : positive) :
  0 < n ->
  Qtrunc (n # d) = n / Z.pos d /\ Qtrunc (Qopp (n # d)) = - (n / Z.pos d).
Proof.
  intros Hn. unfold Qtrunc, Qle_bool, Qceiling, Qfloor. cbn [Qnum Qden Qopp].
  rewrite Z.opp_involutive.
  replace (0 * Z.pos d <=? n * 1) with true by (symmetry; apply Z.leb_le; lia).
  replace (0 * Z.pos d <=? - n * 1) with false by (symmetry; apply Z.leb_gt; lia).
  split; reflexivity.
Qed.

(** The magnitude of a finite float as a fraction, and its integer part. *)
Lemma trunc_mag_fraction (m : positive) (e : Z) :
  exists (n : Z) (d : positive),
    0 < n
    /\ (if 0 <=? e then inject_Z (Z.pos m * 2 ^ e)
        else Qmake (Z.pos m) (Z.to_pos (2 ^ (- e)))) = (n # d)
    /\ trunc_mag m e = n / Z.pos d.
Proof.
  unfold trunc_mag. destruct (Z.leb_spec 0 e) as [He|He].
  - exists (Z.pos m * 2 ^ e), 1%positive.
    split; [|split; [reflexivity|]].
    + pose proof (Z.pow_pos_nonneg 2 e ltac:(lia) He). nia.
    + rewrite Z.shiftl_mul_pow2 by exact He. rewrite Z.div_1_r. reflexivity.
  - exists (Z.pos m), (Z.to_pos (2 ^ (- e))).
    split; [reflexivity|split; [reflexivity|]].
    rewrite Z2Pos.id by (apply Z.pow_pos_nonneg; lia).
    replace e with (- (- e)) at 1 by lia.
    rewrite Z.shiftl_opp_r, Z.shiftr_div_pow2 by lia. reflexivity.
Qed.

(** [float_trunc] rounds the value of a finite float toward zero. *)
Lemma float_trunc_value (f : float) (q : Q) :
  float_value f = Some q -> float_trunc f = Some (Qtrunc q).
Proof.
  unfold float_value, float_trunc.
  destruct (Prim2SF f) as [s|s| |s m e]; intros H; try discriminate.
  - injection H as <-. reflexivity.
  - destruct (trunc_mag_fraction m e) as (n & d & Hn & Hq & Ht).
    cbv zeta in H. rewrite Hq in H. rewrite Ht.
    destruct (Qtrunc_fraction n d Hn) as [Hpos Hneg].
    destruct s; injection H as <-; f_equal; symmetry; assumption.
Qed.



Lemma Qtrunc_nonneg (q : Q) : (0 <= q)%Q -> Qtrunc q = Qfloor q.
Proof.
  intros Hq. unfold Qtrunc. apply Qle_bool_iff in Hq. rewrite Hq. reflexivity.
Qed.

(** ** C5 *)

(** C5 (as the code has it): whenever [tau1 - tau2] is not zero the pulse is
    built and [y[k] = 0] for every [k < start]; the sample at index [start]
    (present when [start < length]) is 0 as well provided [tau1] and [tau2]
    are nonzero numbers and the scale factor [(tau1/(tau1-tau2))*height] is
    finite, [np.exp] mapping a zero to 1. *)
Theorem pulse_is_zero_up_to_its_start (exp : float -> float)
  (length start : nat) (height tau1 tau2 : float) :
  is_zero (tau1 - tau2) = false ->
  exists y,
    pulse exp length start height tau1 tau2 = Ok y
    /\ (forall k : nat, (k < start)%nat -> nth_error y k = Some 0)
    /\ ((start < length)%nat ->
        (forall z : float, is_zero z = true -> exp z = 1%float) ->
        nonzero_number tau1 = true ->
        nonzero_number tau2 = true ->
        is_finite (tau1 / (tau1 - tau2) * height) = true ->
        nth_error y start = Some 0).
Proof.
  intros Hnz.
  destruct (pulse exp length start height tau1 tau2) as [y|e] eqn:Hy.
  2:{ rewrite pulse_unfold in Hy by exact Hnz. discriminate. }
  exists y. split; [reflexivity|]. split.
  - intros k Hk. eapply pulse_delay_region; eassumption.
  - intros Hlt Hexp H1 H2 Hfin.
    rewrite (pulse_after_delay exp length start height tau1 tau2 y start Hy)
      by (rewrite pulse_samples_delay; lia).
    f_equal. apply is_zero_astype_int. rewrite Nat.sub_diag.
    unfold pulse_value.
    rewrite (Hexp _ (neg_zero_div tau1 H1)), (Hexp _ (neg_zero_div tau2 H2)).
    apply finite_mul_zero; [exact Hfin | reflexivity].
Qed.

(** The source's height and time constants, three samples, pulse at 2. *)
Lemma pulse_is_zero_up_to_its_start_witness :
  exists y,
    pulse exp_table 3 2 (height_of script) 5000 2 = Ok y
    /\ nth_error y 0 = Some 0
    /\ nth_error y 1 = Some 0
    /\ nth_error y 2 = Some 0.
Proof.
  destruct (pulse_is_zero_up_to_its_start exp_table 3 2 (height_of script)
              5000 2 eq_refl) as (y & Hy & Hdelay & Hstart).
  exists y. split; [exact Hy|].
  split; [apply Hdelay; lia|]. split; [apply Hdelay; lia|].
  apply Hstart; try reflexivity; [lia|].
  intros z Hz. unfold exp_table. rewrite Hz. reflexivity.
Defined.

(** With [tau1 = 0] or [tau2 = 0] (and [tau1 <> tau2]), or with an infinite
    height, the expression at index [start] is a NaN, which [.astype(int)]
    turns into [-2^63]. *)
Lemma pulse_start_sample_is_not_zero_for_zero_tau :
  pulse exp_table 1 0 1 0 1 = Ok [-9223372036854775808]
  /\ pulse exp_table 1 0 1 1 0 = Ok [-9223372036854775808]
  /\ pulse exp_table 1 0 infinity 2 1 = Ok [-9223372036854775808].
Proof. repeat split; vm_compute; reflexivity. Qed.

(** ** C6 *)




(** ** C9 *)




(** ** The noise generator *)

Lemma SFmul_neg1 (x : spec_float) :
  valid_binary x = true -> SF64mul (Prim2SF (-1)%float) x = SFopp x.
Proof.
  change (Prim2SF (-1)%float) with (S754_finite true 4503599627370496 (-52)).
  destruct x as [s|s| |s m e]; intros Hv; try reflexivity.
  unfold valid_binary, SpecFloat.valid_binary, bounded, canonical_mantissa in Hv.
  apply andb_prop in Hv. destruct Hv as [Hc Hb]. apply Z.eqb_eq in Hc.
  unfold SF64mul, SFmul, SFopp, binary_round_aux, shr_fexp.
  cbn [xorb Pos.mul Zdigits2 digits2_pos shr_record_of_loc].
  set (d := digits2_pos m) in *.
  match goal with |- context [fexp prec emax (Z.pos ?a + (-52 + e))] =>
    replace (Z.pos a + (-52 + e)) with (Z.pos d + e)
      by (rewrite !Pos2Z.inj_succ; lia) end.
  rewrite Hc. replace (e - (-52 + e)) with 52 by lia.
  cbn [shr SpecFloat.iter_pos shr_1 orb round_nearest_even shr_m
       loc_of_shr_record Zdigits2].
  fold d. replace (-52 + e + 52) with e by lia.
  rewrite Hc, Z.sub_diag. cbn [shr shr_m]. rewrite Hb.
  destruct s; reflexivity.
Qed.

(** [-1 * f] is the negation of [f]. *)
Lemma neg1_mul_opp (f : float) : (-1 * f)%float = (- f)%float.
Proof.
  apply Prim2SF_inj. rewrite mul_spec, opp_spec.
  apply SFmul_neg1, Prim2SF_valid.
Qed.

Lemma float_trunc_opp (f : float) :
  float_trunc (- f) = option_map Z.opp (float_trunc f).
Proof.
  unfold float_trunc. rewrite opp_spec.
  destruct (Prim2SF f) as [s|s| |s m e]; try reflexivity.
  destruct s; cbn [SFopp negb option_map]; f_equal; lia.
Qed.

Lemma Qtrunc_inject_Z (n : Z) : Qtrunc (inject_Z n) = n.
Proof.
  unfold Qtrunc. destruct (Qle_bool 0 (inject_Z n)).
  - apply Qfloor_Z.
  - apply Qceiling_Z.
Qed.

(** [int(a)] rounds the value of [a] toward zero. *)
Lemma py_int_value (a : pynum) (q : Q) :
  pynum_value a = Some q -> py_int a = Ok (Qtrunc q).
Proof.
  destruct a as [n|f]; cbn [pynum_value py_int]; intros Hq.
  - injection Hq as <-. rewrite Qtrunc_inject_Z. reflexivity.
  - rewrite (float_trunc_value f q Hq).
    unfold float_value in Hq. destruct (Prim2SF f); try discriminate;
      reflexivity.
Qed.

Lemma py_int_neg1_mul (a : pynum) (q : Q) :
  pynum_value a = Some q -> py_int (py_neg1_mul a) = Ok (- Qtrunc q).
Proof.
  destruct a as [n|f]; cbn [pynum_value py_int py_neg1_mul]; intros Hq.
  - injection Hq as <-. rewrite Qtrunc_inject_Z. f_equal; lia.
  - rewrite neg1_mul_opp, float_trunc_opp, (float_trunc_value f q Hq), opp_spec.
    unfold float_value in Hq. destruct (Prim2SF f); try discriminate;
      reflexivity.
Qed.

(** What [noise] does for an amplitude of value [q], by cases on the
    integer [a] that [q] truncates to. *)
Lemma noise_cases (raw : nat -> Z) (n : nat) (A : pynum) (q : Q) (c : nat) :
  pynum_value A = Some q ->
  noise raw n A c
  = if (n =? 0)%nat then Ok ([], c)
    else if - Qtrunc q <? Int64.min_int then Raise ValueError
    else if Qtrunc q - 1 >? Int64.max_int then Raise ValueError
    else if - Qtrunc q >? Qtrunc q - 1 then Raise ValueError
    else draw raw (- Qtrunc q) (Qtrunc q) n c.
Proof.
  intros Hq. unfold noise, randint. destruct (n =? 0)%nat; [reflexivity|].
  unfold mbind, lift.
  rewrite (py_int_neg1_mul A q Hq), (py_int_value A q Hq).
  destruct (- Qtrunc q <? Int64.min_int); [reflexivity|].
  destruct (Qtrunc q - 1 >? Int64.max_int); [reflexivity|].
  destruct (- Qtrunc q >? Qtrunc q - 1); reflexivity.
Qed.

Lemma draw_bounds (raw : nat -> Z) (lo hi : Z) (n c : nat) :
  lo < hi ->
  exists xs,
    draw raw lo hi n c = Ok (xs, (c + n)%nat)
    /\ length xs = n
    /\ Forall (fun x => lo <= x < hi) xs.
Proof.
  intros Hlt. unfold draw. eexists. split; [reflexivity|]. split.
  - rewrite length_map, length_seq. reflexivity.
  - apply Forall_map, Forall_forall. intros j _.
    pose proof (Z.mod_pos_bound (raw (c + j)%nat) (hi - lo) ltac:(lia)). lia.
Qed.

(** An integer between [-trunc q] and [trunc q] lies in [[-q, q)]. *)
Lemma within_truncated_amplitude (q : Q) (x : Z) :
  (0 < q)%Q -> - Qtrunc q <= x < Qtrunc q ->
  (- q <= inject_Z x)%Q /\ (inject_Z x < q)%Q.
Proof.
  intros Hq Hx. rewrite Qtrunc_nonneg in Hx by (apply Qlt_le_weak, Hq).
  destruct q as [num den]. unfold Qlt, Qle, Qfloor, inject_Z in *.
  cbn [Qnum Qden Qopp] in *.
  pose proof (Z.mul_div_le num (Z.pos den) ltac:(lia)).
  pose proof (Z.mul_succ_div_gt num (Z.pos den) ltac:(lia)).
  split; nia.
Qed.

Lemma Qtrunc_below_one (q : Q) : (q < 1)%Q -> Qtrunc q <= 0.
Proof.
  intros Hq. unfold Qtrunc. destruct (Qle_bool 0 q) eqn:H0.
  - assert (Hf : (inject_Z (Qfloor q) < inject_Z 1)%Q).
    { eapply Qle_lt_trans; [apply Qfloor_le | exact Hq]. }
    rewrite <- Zlt_Qlt in Hf. lia.
  - assert (Hneg : (0 <= - q)%Q).
    { destruct (Qlt_le_dec q 0) as [Hlt|Hge].
      - apply Qlt_le_weak in Hlt. apply Qopp_le_compat in Hlt. exact Hlt.
      - apply Qle_bool_iff in Hge. congruence. }
    unfold Qceiling. apply Qfloor_resp_le in Hneg.
    change (Qfloor 0) with 0 in Hneg. lia.
Qed.

Lemma noise_below_one (raw : nat -> Z) (n c : nat) (A : pynum) (q : Q) :
  pynum_value A = Some q -> (q < 1)%Q ->
  noise raw (S n) A c = Raise ValueError.
Proof.
  intros Hv Hq. rewrite (noise_cases raw (S n) A q c Hv).
  pose proof (Qtrunc_below_one q Hq) as Ha. cbn [Nat.eqb].
  destruct (- Qtrunc q <? Int64.min_int); [reflexivity|].
  destruct (Qtrunc q - 1 >? Int64.max_int); [reflexivity|].
  replace (- Qtrunc q >? Qtrunc q - 1) with true; [reflexivity|].
  symmetry. rewrite Z.gtb_ltb. apply Z.ltb_lt. lia.
Qed.

(** ** C7 *)

(** C7 (as the code has it): for every length [n] and every amplitude of
    value [q > 0] (a Python int or a finite float), with [a] the integer [q]
    truncates to: a noise sequence that is returned has [n] elements, each
    an integer [x] with [-a <= x < a], hence [-q <= x < q]; one is returned
    whenever [1 <= q <= 2^63]; for [q < 1] and [n >= 1] ValueError is raised
    instead; and every integer of [[-a, a)] is drawn for some state of the
    random source, so the draws range over the integers of [[-a, a)]. *)
Theorem noise_within_amplitude (raw : nat -> Z) (n : nat) (A : pynum) (q : Q)
  (c : nat) :
  pynum_value A = Some q ->
  (0 < q)%Q ->
  (forall (xs : list Z) (c' : nat),
      noise raw n A c = Ok (xs, c') ->
      length xs = n
      /\ Forall (fun x => - Qtrunc q <= x < Qtrunc q
                          /\ (- q <= inject_Z x)%Q /\ (inject_Z x < q)%Q) xs)
  /\ ((1 <= q)%Q -> (q <= inject_Z (2 ^ 63))%Q ->
      exists xs, noise raw n A c = Ok (xs, (c + n)%nat))
  /\ ((q < 1)%Q -> (1 <= n)%nat -> noise raw n A c = Raise ValueError)
  /\ (forall v : Z,
         - Qtrunc q <= v < Qtrunc q -> Qtrunc q <= 2 ^ 63 ->
         noise (fun _ => v + Qtrunc q) n A c = Ok (repeat v n, (c + n)%nat)).
Proof.
  intros Hv Hq. split; [|split; [|split]].
  - rewrite (noise_cases raw n A q c Hv). intros xs c' Hrun.
    destruct (Nat.eqb_spec n 0) as [->|Hn].
    { injection Hrun as <- <-. split; [reflexivity | constructor]. }
    destruct (- Qtrunc q <? Int64.min_int); [discriminate|].
    destruct (Qtrunc q - 1 >? Int64.max_int); [discriminate|].
    destruct (Z.gtb_spec (- Qtrunc q) (Qtrunc q - 1)) as [|Hle]; [discriminate|].
    destruct (draw_bounds raw (- Qtrunc q) (Qtrunc q) n c ltac:(lia))
      as (ys & Hdraw & Hlen & Hall).
    rewrite Hdraw in Hrun. injection Hrun as <- <-.
    split; [exact Hlen|]. eapply Forall_impl; [|exact Hall].
    intros x Hx. split; [exact Hx|].
    apply within_truncated_amplitude; assumption.
  - rewrite (noise_cases raw n A q c Hv). intros H1 H2.
    destruct (Nat.eqb_spec n 0) as [->|Hn].
    { exists []. rewrite Nat.add_0_r. reflexivity. }
    assert (Ha : 1 <= Qtrunc q <= 2 ^ 63).
    { rewrite Qtrunc_nonneg by (apply Qlt_le_weak, Hq).
      split.
      - change 1 with (Qfloor 1). apply Qfloor_resp_le, H1.
      - rewrite <- (Qfloor_Z (2 ^ 63)). apply Qfloor_resp_le, H2. }
    unfold Int64.min_int, Int64.max_int.
    replace (- Qtrunc q <? - 2 ^ 63) with false
      by (symmetry; apply Z.ltb_ge; lia).
    replace (Qtrunc q - 1 >? 2 ^ 63 - 1) with false
      by (symmetry; rewrite Z.gtb_ltb; apply Z.ltb_ge; lia).
    replace (- Qtrunc q >? Qtrunc q - 1) with false
      by (symmetry; rewrite Z.gtb_ltb; apply Z.ltb_ge; lia).
    destruct (draw_bounds raw (- Qtrunc q) (Qtrunc q) n c ltac:(lia))
      as (ys & Hdraw & _). exists ys. exact Hdraw.
  - intros H1 Hn. destruct n as [|m]; [lia|].
    apply (noise_below_one raw m c A q Hv H1).
  - intros v Hrange Ha.
    rewrite (noise_cases _ n A q c Hv).
    destruct (Nat.eqb_spec n 0) as [->|Hn].
    { rewrite Nat.add_0_r. reflexivity. }
    unfold Int64.min_int, Int64.max_int.
    replace (- Qtrunc q <? - 2 ^ 63) with false
      by (symmetry; apply Z.ltb_ge; lia).
    replace (Qtrunc q - 1 >? 2 ^ 63 - 1) with false
      by (symmetry; rewrite Z.gtb_ltb; apply Z.ltb_ge; lia).
    replace (- Qtrunc q >? Qtrunc q - 1) with false
      by (symmetry; rewrite Z.gtb_ltb; apply Z.ltb_ge; lia).
    unfold draw. cbn beta. f_equal. f_equal.
    replace (Qtrunc q - - Qtrunc q) with (2 * Qtrunc q) by lia.
    rewrite Z.mod_small by lia.
    rewrite map_const, length_seq. f_equal. lia.
Qed.

Lemma noise_within_amplitude_witness :
  Forall (fun x => - Qtrunc (16 # 1) <= x < Qtrunc (16 # 1)
                   /\ (- (16 # 1) <= inject_Z x)%Q /\ (inject_Z x < 16 # 1)%Q)
    [-16; -15; -14].
Proof.
  refine (proj2 (proj1 (noise_within_amplitude counting_draws 3 (PyInt 16)
                          (16 # 1) 0 eq_refl _) [-16; -15; -14] 3%nat _)).
  - reflexivity.
  - vm_compute. reflexivity.
Defined.

(** The amplitude of the source, [nlev*mvbin] (about 16.39), gives integers
    from -16 to 15. *)
Lemma script_noise_range (raw : nat -> Z) (n c : nat) :
  exists xs,
    noise raw n (amplitude_of script) c = Ok (xs, (c + n)%nat)
    /\ length xs = n
    /\ Forall (fun x => -16 <= x < 16) xs.
Proof.
  assert (Hv : exists q, pynum_value (amplitude_of script) = Some q
                         /\ Qtrunc q = 16).
  { eexists. split; [vm_compute; reflexivity | vm_compute; reflexivity]. }
  destruct Hv as (q & Hv & Ht).
  rewrite (noise_cases raw n _ q c Hv), Ht.
  destruct (Nat.eqb_spec n 0) as [->|Hn].
  - exists []. rewrite Nat.add_0_r. repeat split. constructor.
  - change (-16 <? Int64.min_int) with false.
    change (16 - 1 >? Int64.max_int) with false.
    change (-16 >? 16 - 1) with false. cbv iota.
    apply draw_bounds. lia.
Qed.

(** A fractional amplitude gives no sequence at all, and with the amplitude
    of the source (about 16.39) the integer 16 lies in [[-A, A)] but is
    never drawn. *)
Lemma noise_does_not_cover_the_interval :
  noise counting_draws 1 (PyFloat 0.5) 0%nat = Raise ValueError
  /\ (exists q : Q,
         pynum_value (amplitude_of script) = Some q
         /\ (- q <= inject_Z 16)%Q /\ (inject_Z 16 < q)%Q)
  /\ (forall (raw : nat -> Z) (n c : nat) (xs : list Z) (c' : nat),
         noise raw n (amplitude_of script) c = Ok (xs, c') -> ~ In 16 xs).
Proof.
  split; [reflexivity|]. split.
  - eexists. split; [vm_compute; reflexivity|].
    split; vm_compute; congruence.
  - intros raw n c xs c' Hrun Hin.
    destruct (script_noise_range raw n c) as (ys & Hys & _ & Hall).
    rewrite Hys in Hrun. injection Hrun as <- _.
    rewrite Forall_forall in Hall. specialize (Hall 16 Hin). lia.
Qed.

(** ** C8 *)

(** C8 (as the code has it): with amplitude 0 (the int 0 or the float 0.0)
    a request for no element returns the empty sequence, and a request for
    one or more elements raises ValueError, the range [[-0, 0)] being empty:
    no sequence of zeros is returned. *)
Theorem zero_amplitude_noise_raises (raw : nat -> Z) (n c : nat) :
  noise raw (S n) (PyInt 0) c = Raise ValueError
  /\ noise raw (S n) (PyFloat 0) c = Raise ValueError
  /\ noise raw 0 (PyInt 0) c = Ok ([], c)
  /\ noise raw 0 (PyFloat 0) c = Ok ([], c).
Proof.
  split; [|split; [|split; reflexivity]].
  - rewrite (noise_cases raw (S n) (PyInt 0) 0%Q c eq_refl). reflexivity.
  - rewrite (noise_cases raw (S n) (PyFloat 0) 0%Q c eq_refl). reflexivity.
Qed.

(** Three samples of noise of amplitude 0 are not three zeros. *)
Lemma zero_amplitude_noise_fails :
  noise counting_draws 3 (PyInt 0) 0%nat = Raise ValueError.
Proof. reflexivity. Qed.


(** ** C3 *)

Section Trials.

Variable exp : float -> float.
Variable raw : nat -> Z.
Variable p : params.

(** Consecutive batches of trials make one batch. *)
Lemma trial_signals_app (n m : nat) :
  forall (x : list Z) (sigs1 sigs2 : list (list Z)) (c c1 c2 : nat),
  trial_signals exp raw p n x c = Ok (sigs1, c1) ->
  trial_signals exp raw p m (last sigs1 x) c1 = Ok (sigs2, c2) ->
  trial_signals exp raw p (n + m) x c = Ok (sigs1 ++ sigs2, c2).
Proof.
  induction n as [|n IH]; intros x sigs1 sigs2 c c1 c2 H1 H2.
  - cbn in H1. injection H1 as <- <-. exact H2.
  - cbn [trial_signals] in H1.
    bind_ok H1 x1 c0 Hs. bind_ok H1 rest c3 Hrest.
    cbn in H1. injection H1 as <- <-. rewrite last_cons in H2.
    cbn [Nat.add trial_signals]. unfold mbind at 1. rewrite Hs.
    unfold mbind at 1. rewrite (IH x1 rest sigs2 c0 c3 c2 Hrest H2).
    reflexivity.
Qed.

(** What a completed run of the script has done. *)
Lemma main_trace (c c' : nat) (x h1 h2 : list Z) :
  main exp raw p c = Ok ((x, h1, h2), c') ->
  exists (x0 : list Z) (c0 c1 : nat) (sigs1 sigs2 : list (list Z)),
    first_signal exp raw p c = Ok (x0, c0)
    /\ trial_signals exp raw p 300 x0 c0 = Ok (sigs1, c1)
    /\ trial_signals exp raw p 300 (last sigs1 x0) c1 = Ok (sigs2, c')
    /\ record_all (hist_zeros 16384) (map (h1_energy p) sigs1) = Ok h1
    /\ record_all (hist_zeros 16384) (map (h2_energy p) sigs2) = Ok h2.
Proof.
  unfold main. intros Hrun.
  bind_ok Hrun x0 c0 Hf. bind_ok Hrun xh1 c1 Hl1. bind_ok Hrun xh2 c2 Hl2.
  destruct xh1 as [x1 h1'], xh2 as [x2 h2'].
  cbn in Hrun. injection Hrun as <- <- <- <-. cbn [fst] in Hl2.
  destruct (hist_loop_trace exp raw p _ _ _ _ _ _ _ _ Hl1)
    as (sigs1 & Ht1 & Hr1 & ->).
  destruct (hist_loop_trace exp raw p _ _ _ _ _ _ _ _ Hl2)
    as (sigs2 & Ht2 & Hr2 & _).
  exists x0, c0, c1, sigs1, sigs2. auto.
Qed.

End Trials.

(** C3 (as the code has it): the two histograms are accumulated by two
    loops, one after the other, each over 300 signals of its own: the 600
    signals are synthesised consecutively from the shared random source, the
    first 300 are fed to the plain-sum extractor only and fill [h1], the
    next 300 are fed to the subtracted-sum extractor only and fill [h2]. *)
Theorem histograms_count_separate_trials (exp : float -> float)
  (raw : nat -> Z) (p : params) (c c' : nat) (x h1 h2 : list Z) :
  main exp raw p c = Ok ((x, h1, h2), c') ->
  exists (sigs1 sigs2 : list (list Z)) (c1 : nat),
    h1_trials exp raw p c = Ok (sigs1, c1)
    /\ h2_trials exp raw p c = Ok (sigs2, c')
    /\ length sigs1 = 300%nat
    /\ length sigs2 = 300%nat
    /\ record_all (hist_zeros 16384) (map (h1_energy p) sigs1) = Ok h1
    /\ record_all (hist_zeros 16384) (map (h2_energy p) sigs2) = Ok h2
    /\ exists (x0 : list Z) (c0 : nat),
         first_signal exp raw p c = Ok (x0, c0)
         /\ trial_signals exp raw p 600 x0 c0 = Ok (sigs1 ++ sigs2, c').
Proof.
  intros Hrun.
  destruct (main_trace exp raw p c c' x h1 h2 Hrun)
    as (x0 & c0 & c1 & sigs1 & sigs2 & Hf & Ht1 & Ht2 & Hr1 & Hr2).
  exists sigs1, sigs2, c1.
  split. { unfold h1_trials, mbind. rewrite Hf. exact Ht1. }
  split. { unfold h2_trials, mbind. rewrite Hf, Ht1. exact Ht2. }
  split. { eapply trial_signals_length; eassumption. }
  split. { eapply trial_signals_length; eassumption. }
  split; [exact Hr1|]. split; [exact Hr2|].
  exists x0, c0. split; [exact Hf|].
  change 600%nat with (300 + 300)%nat.
  eapply trial_signals_app; eassumption.
Qed.

(** The short run completes, and its two loops have 300 trials each. *)
Lemma histograms_count_separate_trials_witness :
  exists (sigs1 sigs2 : list (list Z)) (c1 c2 : nat),
    h1_trials exp_table counting_draws short_params 0%nat = Ok (sigs1, c1)
    /\ h2_trials exp_table counting_draws short_params 0%nat = Ok (sigs2, c2)
    /\ length sigs1 = 300%nat
    /\ length sigs2 = 300%nat.
Proof.
  assert (Hrun : exists x h1 h2 c',
             main exp_table counting_draws short_params 0%nat = Ok ((x, h1, h2), c')).
  { vm_compute. do 4 eexists. reflexivity. }
  destruct Hrun as (x & h1 & h2 & c' & Hrun).
  destruct (histograms_count_separate_trials exp_table counting_draws
              short_params 0%nat c' x h1 h2 Hrun)
    as (sigs1 & sigs2 & c1 & H1 & H2 & Hn1 & Hn2 & _).
  exists sigs1, sigs2, c1, c'. auto.
Defined.

(** In the short run the first trial of the plain-sum loop and the first
    trial of the subtracted-sum loop use different signals, and the
    subtracted-sum histogram is not the one the signals of the plain-sum
    loop would give: bin 383 holds 32 trials, not 40. *)
Lemma loops_use_different_signals :
  nth 0 (signals_of (h1_trials exp_table counting_draws short_params 0%nat)) []
  = [8068; 8069; 8070; 16208]
  /\ nth 0 (signals_of (h2_trials exp_table counting_draws short_params 0%nat)) []
     = [8244; 8245; 8246; 16384]
  /\ (exists h,
         record_all (hist_zeros 16384)
           (map (h2_energy short_params)
              (signals_of (h1_trials exp_table counting_draws short_params 0%nat)))
         = Ok h
         /\ nth 383 h 0 = 40)
  /\ nth 383 (snd (histograms_of
                     (main exp_table counting_draws short_params 0%nat))) 0
     = 32.
Proof.
  split; [vm_compute; reflexivity|]. split; [vm_compute; reflexivity|].
  split; [|vm_compute; reflexivity].
  vm_compute. eexists. split; reflexivity.
Qed.

(** * Further properties of the code *)

(** ** How long the result of [pulse] is *)

(** The array [pulse] returns has [length] samples when [start <= length];
    a later start gives [max start (2 * length)] samples instead. *)
Theorem pulse_result_length (exp : float -> float) (length start : nat)
  (height tau1 tau2 : float) (y : list Z) :
  pulse exp length start height tau1 tau2 = Ok y ->
  List.length y
  = if (start <=? length)%nat then length else Nat.max start (2 * length).
Proof.
  intros Hy. rewrite (pulse_length exp _ _ _ _ _ _ Hy).
  destruct (Nat.leb_spec start length) as [Hle|Hlt].
  - rewrite pulse_samples_delay by exact Hle. lia.
  - apply pulse_samples_late, Hlt.
Qed.

Lemma pulse_result_length_witness :
  List.length [0; 0; 0; 8137] = 4%nat
  /\ List.length [0; 0; 0; 0; 0; 0; 0; 0] = 8%nat.
Proof.
  split.
  - exact (pulse_result_length exp_table 4 2 (height_of short_params) 2 1
             [0; 0; 0; 8137] eq_refl).
  - exact (pulse_result_length exp_table 4 6 1 2 1
             [0; 0; 0; 0; 0; 0; 0; 0] eq_refl).
Defined.

(** ** What the histogram holds *)

Lemma count_occ_bin_cons (k b : nat) (l : list nat) :
  Z.of_nat (count_occ Nat.eq_dec (b :: l) k)
  = (if (k =? b)%nat then 1 else 0) + Z.of_nat (count_occ Nat.eq_dec l k).
Proof.
  cbn [count_occ]. destruct (Nat.eq_dec b k) as [->|Hne].
  - rewrite Nat.eqb_refl. lia.
  - replace (k =? b)%nat with false by (symmetry; apply Nat.eqb_neq; auto).
    lia.
Qed.

(** Recording energies adds, to each bin, the number of energies that index
    it; the histogram keeps its length. *)
Lemma record_all_counts (es : list Z) : forall h h' : list Z,
  record_all h es = Ok h' ->
  length h' = length h
  /\ forall k : nat,
       nth k h' 0
       = nth k h 0
         + Z.of_nat (count_occ Nat.eq_dec (map (bin_of (length h)) es) k).
Proof.
  induction es as [|e es IH]; intros h h' Hrec.
  - cbn in Hrec. injection Hrec as <-. split; [reflexivity|].
    intros k. cbn [map count_occ Z.of_nat]. symmetry. apply Z.add_0_r.
  - cbn [record_all] in Hrec.
    destruct (hist_incr_cases h e) as [[Hinc Hbin]|Hinc];
      rewrite Hinc in Hrec; [|discriminate].
    cbn [bind] in Hrec. destruct (IH _ _ Hrec) as [Hlen Hnth].
    rewrite incr_at_length in Hlen, Hnth. split; [exact Hlen|].
    intros k. rewrite Hnth, incr_at_nth by exact Hbin.
    cbn [map]. rewrite count_occ_bin_cons.
    destruct (k =? bin_of (length h) e)%nat; lia.
Qed.

Lemma nth_hist_zeros (n k : nat) : nth k (hist_zeros n) 0 = 0.
Proof.
  unfold hist_zeros. revert k. induction n as [|n IH]; intros [|k]; cbn; auto.
Qed.

(** Every bin of the histogram of a completed loop holds the number of the
    loop's trials whose energy indexes that bin (a negative energy [e]
    indexing bin [16384 + e]). *)
Theorem histogram_bin_counts_its_trials (exp : float -> float)
  (raw : nat -> Z) (p : params) (energy : list Z -> Z) (n : nat)
  (x x' h : list Z) (c c' : nat) :
  hist_loop exp raw p energy n x (hist_zeros 16384) c = Ok ((x', h), c') ->
  exists sigs,
    trial_signals exp raw p n x c = Ok (sigs, c')
    /\ forall k : nat,
         nth k h 0
         = Z.of_nat
             (count_occ Nat.eq_dec
                (map (fun s => bin_of 16384 (energy s)) sigs) k).
Proof.
  intros Hrun.
  destruct (hist_loop_trace exp raw p energy n _ _ _ _ _ _ Hrun)
    as (sigs & Htr & Hrec & _).
  exists sigs. split; [exact Htr|]. intros k.
  destruct (record_all_counts _ _ _ Hrec) as [_ Hnth].
  rewrite Hnth, nth_hist_zeros, hist_zeros_length, map_map. reflexivity.
Qed.

(** Three trials of the short run, each of energy 379. *)
Lemma histogram_bin_counts_its_trials_witness :
  exists sigs,
    trial_signals exp_table counting_draws short_params 3
      [8064; 8065; 8066; 16204] 4%nat = Ok (sigs, 16%nat)
    /\ Z.of_nat
         (count_occ Nat.eq_dec
            (map (fun s => bin_of 16384 (h1_energy short_params s)) sigs)
            379%nat)
       = 3.
Proof.
  assert (Hrun : exists x' h,
             hist_loop exp_table counting_draws short_params
               (h1_energy short_params) 3 [8064; 8065; 8066; 16204]
               (hist_zeros 16384) 4%nat = Ok ((x', h), 16%nat)
             /\ nth 379 h 0 = 3).
  { vm_compute. do 2 eexists. split; reflexivity. }
  destruct Hrun as (x' & h & Hrun & H379).
  destruct (histogram_bin_counts_its_trials exp_table counting_draws
              short_params (h1_energy short_params) 3 _ x' h 4%nat 16%nat Hrun)
    as (sigs & Htr & Hnth).
  exists sigs. split; [exact Htr|]. rewrite <- Hnth. exact H379.
Defined.

(** A run of the script that completes leaves two histograms of 16384
    non-negative counts, each summing to 300, whatever the energies were:
    an energy the histogram cannot index would have stopped the run. *)
Theorem completed_run_counts_300_twice (exp : float -> float)
  (raw : nat -> Z) (p : params) (c c' : nat) (x h1 h2 : list Z) :
  main exp raw p c = Ok ((x, h1, h2), c') ->
  (length h1 = 16384%nat /\ zsum h1 = 300 /\ Forall (fun v => 0 <= v) h1)
  /\ (length h2 = 16384%nat /\ zsum h2 = 300 /\ Forall (fun v => 0 <= v) h2).
Proof.
  intros Hrun.
  destruct (main_trace exp raw p c c' x h1 h2 Hrun)
    as (x0 & c0 & c1 & sigs1 & sigs2 & _ & Ht1 & Ht2 & Hr1 & Hr2).
  pose proof (trial_signals_length exp raw p _ _ _ _ _ Ht1) as Hn1.
  pose proof (trial_signals_length exp raw p _ _ _ _ _ Ht2) as Hn2.
  destruct (record_all_counts _ _ _ Hr1) as [Hl1 _].
  destruct (record_all_counts _ _ _ Hr2) as [Hl2 _].
  destruct (record_all_total _ _ _ Hr1) as [Hs1 Hp1].
  destruct (record_all_total _ _ _ Hr2) as [Hs2 Hp2].
  rewrite hist_zeros_length in Hl1, Hl2.
  rewrite hist_zeros_zsum, length_map in Hs1, Hs2.
  rewrite Hn1 in Hs1. rewrite Hn2 in Hs2.
  repeat split; auto using hist_zeros_nonneg.
Qed.

Lemma completed_run_counts_300_twice_witness :
  zsum (fst (histograms_of (main exp_table counting_draws short_params 0%nat)))
  = 300
  /\ zsum (snd (histograms_of
                  (main exp_table counting_draws short_params 0%nat)))
     = 300.
Proof.
  assert (Hrun : exists x h1 h2 c',
             main exp_table counting_draws short_params 0%nat
             = Ok ((x, h1, h2), c')).
  { vm_compute. do 4 eexists. reflexivity. }
  destruct Hrun as (x & h1 & h2 & c' & Hrun).
  destruct (completed_run_counts_300_twice exp_table counting_draws
              short_params 0%nat c' x h1 h2 Hrun)
    as [(_ & Hs1 & _) (_ & Hs2 & _)].
  rewrite Hrun. cbn [histograms_of fst snd]. split; assumption.
Defined.

(** A trial whose energy is below [-len] or at least [len], for a histogram
    of [len] bins, raises IndexError: the loop stops there and no later
    trial runs. *)
Theorem out_of_range_energy_stops_the_loop (exp : float -> float)
  (raw : nat -> Z) (p : params) (energy : list Z -> Z) (n : nat)
  (x h x' : list Z) (c c' : nat) :
  synthesize exp raw p x c = Ok (x', c') ->
  energy x' < - Z.of_nat (length h) \/ Z.of_nat (length h) <= energy x' ->
  hist_loop exp raw p energy (S n) x h c = Raise IndexError.
Proof.
  intros Hs Hout. rewrite (hist_loop_step exp raw p energy n x h x' c c' Hs).
  rewrite hist_incr_out_of_range by exact Hout. reflexivity.
Qed.

(** The loud run: the first trial has energy 123409. *)
Lemma out_of_range_energy_stops_the_loop_witness :
  h1_energy loud_params [-119808; -119807; -119806; 8018010] = 123409
  /\ h1_loop exp_table counting_draws loud_params 300
       [0; 0; 0; 0] (hist_zeros 16384) 0%nat
     = Raise IndexError.
Proof.
  split; [vm_compute; reflexivity|].
  refine (out_of_range_energy_stops_the_loop exp_table counting_draws
            loud_params (h1_energy loud_params) 299 [0; 0; 0; 0]
            (hist_zeros 16384) [-119808; -119807; -119806; 8018010]
            0%nat 4%nat _ _).
  - vm_compute. reflexivity.
  - right. vm_compute. discriminate.
Defined.

(** ** The histogram does not depend on the order of the trials *)

Lemma incr_at_swap (a b : nat) (h : list Z) :
  incr_at a (incr_at b h) = incr_at b (incr_at a h).
Proof.
  revert a b. induction h as [|v h IH]; intros [|a] [|b]; cbn;
    try reflexivity. f_equal. apply IH.
Qed.

(** Whether [h[i] += 1] succeeds, and on which bin, depends on the length
    of the histogram only. *)
Lemma hist_incr_by_length (h : list Z) (i : Z) :
  (forall h' : list Z, length h' = length h ->
     hist_incr h' i = Ok (incr_at (bin_of (length h) i) h'))
  \/ (forall h' : list Z, length h' = length h ->
        hist_incr h' i = Raise IndexError).
Proof.
  destruct (Z_lt_dec i (- Z.of_nat (length h))) as [Hlo|Hlo].
  { right. intros h' Hl. apply hist_incr_out_of_range. rewrite Hl. lia. }
  destruct (Z_le_dec (Z.of_nat (length h)) i) as [Hhi|Hhi].
  { right. intros h' Hl. apply hist_incr_out_of_range. rewrite Hl. lia. }
  left. intros h' Hl. rewrite <- Hl. apply hist_incr_ok. rewrite Hl. lia.
Qed.

Lemma record_two_swap (h : list Z) (a b : Z) (es : list Z) :
  record_all h (a :: b :: es) = record_all h (b :: a :: es).
Proof.
  cbn [record_all].
  destruct (hist_incr_by_length h a) as [Ha|Ha],
           (hist_incr_by_length h b) as [Hb|Hb];
    rewrite (Ha h eq_refl), (Hb h eq_refl); cbn [bind];
    rewrite ?Ha, ?Hb by apply incr_at_length; cbn [bind];
    rewrite ?incr_at_swap with (a := bin_of (length h) a); reflexivity.
Qed.

(** Recording the same energies in another order gives the same histogram,
    or the same IndexError: the result of a batch depends only on which
    energies occur and how often. *)
Theorem histogram_is_order_independent (es es' : list Z) :
  Permutation es es' ->
  forall h : list Z, record_all h es = record_all h es'.
Proof.
  induction 1 as [|e l l' _ IH|a b l|l l' l'' _ IH1 _ IH2]; intros h.
  - reflexivity.
  - cbn [record_all]. destruct (hist_incr h e); cbn [bind]; auto.
  - apply record_two_swap.
  - rewrite IH1. apply IH2.
Qed.

Lemma histogram_is_order_independent_witness :
  record_all (hist_zeros 4) [1; -1; 1] = record_all (hist_zeros 4) [-1; 1; 1].
Proof.
  apply histogram_is_order_independent.
  apply perm_swap.
Defined.

(** ** Amplitudes the noise generator rejects *)


(** ** Energies of 14-bit signals *)

Lemma py_slice_length_le {A : Type} (l : list A) (a b : Z) :
  a <= b -> Z.of_nat (length (py_slice l a b)) <= b - a.
Proof.
  intros Hab. unfold py_slice. rewrite length_firstn. unfold slice_index.
  destruct (Z.ltb_spec a 0), (Z.ltb_spec b 0); lia.
Qed.

Lemma Forall_firstn_skipn {A : Type} (P : A -> Prop) (l : list A) :
  Forall P l -> forall n m : nat, Forall P (firstn n (skipn m l)).
Proof.
  induction 1 as [|v l Hv Hl IH]; intros n m.
  - destruct m, n; constructor.
  - destruct m as [|m]; [|apply IH].
    destruct n as [|n]; cbn; constructor; [exact Hv|].
    apply (IH n 0%nat).
Qed.

Lemma Forall_py_slice {A : Type} (P : A -> Prop) (l : list A) (a b : Z) :
  Forall P l -> Forall P (py_slice l a b).
Proof. intros H. apply Forall_firstn_skipn, H. Qed.

Lemma zsum_bounds (lo hi : Z) (l : list Z) :
  Forall (fun v => lo <= v <= hi) l ->
  Z.of_nat (length l) * lo <= zsum l <= Z.of_nat (length l) * hi.
Proof.
  induction 1 as [|v l Hv _ IH]; cbn [zsum fold_right length]; [lia|].
  fold (zsum l). lia.
Qed.

(** The sum of at most 64 samples of a 14-bit signal. *)
Lemma window_sum_bounds (x : list Z) (a b : Z) :
  Forall (fun v => 0 <= v < 16384) x ->
  a <= b <= a + 64 ->
  0 <= zsum (py_slice x a b) <= 64 * 16383.
Proof.
  intros Hx Hab.
  pose proof (py_slice_length_le x a b ltac:(lia)) as Hlen.
  assert (Hs : Forall (fun v => 0 <= v <= 16383) (py_slice x a b)).
  { apply Forall_py_slice. eapply Forall_impl; [|exact Hx].
    cbn beta. intros v Hv. lia. }
  apply zsum_bounds in Hs. nia.
Qed.

(** For a signal of 14-bit samples (every sample in [[0, 16384)]) and a
    summing region of at most 64 samples, the plain-sum energy lies in
    [[0, 16384)] and the subtracted-sum energy in [(-16384, 16384)]: each
    indexes the 16384-bin histogram without an IndexError. *)
Theorem energies_of_14_bit_signals_index_the_histogram (p : params)
  (x h : list Z) :
  Forall (fun v => 0 <= v < 16384) x ->
  start_index p <= end_index p <= start_index p + 64 ->
  length h = 16384%nat ->
  0 <= h1_energy p x < 16384
  /\ -16384 < h2_energy p x < 16384
  /\ (exists h', hist_incr h (h1_energy p x) = Ok h')
  /\ (exists h', hist_incr h (h2_energy p x) = Ok h').
Proof.
  intros Hx Hwin Hlen.
  pose proof (window_sum_bounds x _ _ Hx Hwin) as H1.
  pose proof (window_sum_bounds x (start_index p - 1000) (end_index p - 1000)
                Hx ltac:(lia)) as H2.
  assert (He1 : 0 <= h1_energy p x < 16384).
  { unfold h1_energy. rewrite np_sum_wrap, wrap_small, shr_floor
      by (unfold Int64.in_range, Int64.min_int, Int64.max_int; lia).
    change (2 ^ 6) with 64. split.
    - apply Z.div_pos; lia.
    - apply Z.div_lt_upper_bound; lia. }
  assert (He2 : -16384 < h2_energy p x < 16384).
  { rewrite h2_energy_exact
      by (unfold Int64.in_range, Int64.min_int, Int64.max_int; lia).
    split.
    - apply Z.lt_le_trans with (-16383); [lia|].
      apply Z.div_le_lower_bound; lia.
    - apply Z.div_lt_upper_bound; lia. }
  split; [exact He1|]. split; [exact He2|].
  split; eexists; apply hist_incr_ok; rewrite Hlen;
    change (Z.of_nat 16384) with 16384; lia.
Qed.

(** The first signal of the short run. *)
Lemma energies_of_14_bit_signals_index_the_histogram_witness :
  0 <= h1_energy short_params [8064; 8065; 8066; 16204] < 16384
  /\ -16384 < h2_energy short_params [8064; 8065; 8066; 16204] < 16384.
Proof.
  destruct (energies_of_14_bit_signals_index_the_histogram short_params
              [8064; 8065; 8066; 16204] (hist_zeros 16384))
    as (H1 & H2 & _).
  - repeat constructor; vm_compute; congruence.
  - vm_compute. split; congruence.
  - apply hist_zeros_length.
  - split; assumption.
Defined.

(** ** A summing region that starts before sample 1000 *)

Lemma py_slice_negative {A : Type} (l : list A) (a b : Z) :
  - Z.of_nat (length l) <= a < 0 ->
  - Z.of_nat (length l) <= b < 0 ->
  py_slice l a b
  = py_slice l (Z.of_nat (length l) + a) (Z.of_nat (length l) + b).
Proof.
  intros Ha Hb. unfold py_slice, slice_index.
  destruct (Z.ltb_spec a 0), (Z.ltb_spec b 0); try lia.
  destruct (Z.ltb_spec (Z.of_nat (length l) + a) 0),
    (Z.ltb_spec (Z.of_nat (length l) + b) 0); try lia.
  f_equal; [f_equal; lia | f_equal; lia].
Qed.

(** When the summing region ends before sample 1000 (both bounds in
    [[0, 1000)]) and the signal has at least 1000 samples, nothing is
    raised: the negative bounds of the lagged window count from the end, so
    the window subtracted is the one 1000 samples before the end of the
    signal plus the region's offsets. *)
Theorem early_region_subtracts_the_tail (p : params) (x : list Z) :
  0 <= start_index p < 1000 ->
  0 <= end_index p < 1000 ->
  (1000 <= length x)%nat ->
  h2_energy p x
  = Int64.shr
      (Int64.sub
         (np_sum (py_slice x (start_index p) (end_index p)))
         (np_sum (py_slice x (Z.of_nat (length x) - 1000 + start_index p)
                           (Z.of_nat (length x) - 1000 + end_index p))))
      6.
Proof.
  intros Hs He Hn. unfold h2_energy.
  rewrite (py_slice_negative x (start_index p - 1000) (end_index p - 1000))
    by lia.
  do 4 f_equal; lia.
Qed.

(** On the ramp 0..1999 the region [[500, 564)] is compared with
    [[1500, 1564)]: the energy is -1000. *)
Lemma early_region_subtracts_the_tail_witness :
  h2_energy early_params ramp_signal = -1000.
Proof.
  rewrite (early_region_subtracts_the_tail early_params ramp_signal).
  - vm_compute. reflexivity.
  - vm_compute. split; congruence.
  - vm_compute. split; congruence.
  - vm_compute. apply Nat.leb_le. reflexivity.
Defined.

(** ** The shape of the synthesised signals *)

Lemma noise_shape (raw : nat -> Z) (n : nat) (A : pynum) (c c' : nat)
  (xs : list Z) :
  noise raw n A c = Ok (xs, c') -> length xs = n /\ c' = (c + n)%nat.
Proof.
  unfold noise, randint. destruct n as [|n].
  - cbn. intros H. injection H as <- <-. split; [reflexivity | lia].
  - cbn [Nat.eqb]. unfold mbind, lift.
    destruct (py_int (py_neg1_mul A)) as [lo|e]; [|discriminate].
    destruct (py_int A) as [hi|e]; [|discriminate].
    destruct (lo <? Int64.min_int); [discriminate|].
    destruct (hi - 1 >? Int64.max_int); [discriminate|].
    destruct (lo >? hi - 1); [discriminate|].
    unfold draw. intros H. injection H as <- <-.
    cbn [length]. rewrite length_map, length_seq. auto.
Qed.

Lemma zip_with_length {A B C : Type} (f : A -> B -> C) (a : list A)
  (b : list B) :
  length (zip_with f a b) = Nat.min (length a) (length b).
Proof. unfold zip_with. rewrite length_map, length_combine. reflexivity. Qed.

Lemma zip_with_nth_error {A B C : Type} (f : A -> B -> C) (a : list A) :
  forall (b : list B) (k : nat),
  nth_error (zip_with f a b) k
  = match nth_error a k, nth_error b k with
    | Some u, Some v => Some (f u v)
    | _, _ => None
    end.
Proof.
  unfold zip_with. induction a as [|u a IH]; intros [|v b] [|k]; cbn;
    try reflexivity.
  - destruct (nth_error a k); reflexivity.
  - apply IH.
Qed.

Lemma np_add_same_length (a b : list Z) :
  length a = length b -> np_add a b = Ok (zip_with Int64.add a b).
Proof. intros H. unfold np_add. rewrite H, Nat.eqb_refl. reflexivity. Qed.

Section Synthesis.

Variable exp : float -> float.
Variable raw : nat -> Z.
Variable p : params.

Lemma synthesize_inv (x x' : list Z) (c c' : nat) :
  synthesize exp raw p x c = Ok (x', c') ->
  exists s n sn,
    pulse exp (tlen p) (ppos p) (height_of p) (dtau p) (rtau p) = Ok s
    /\ noise raw (length x) (amplitude_of p) c = Ok (n, c')
    /\ np_add s n = Ok sn
    /\ x' = np_add_scalar sn 8192.
Proof.
  unfold synthesize. intros H.
  unfold mbind at 1 in H. unfold lift at 1 in H.
  destruct (pulse exp (tlen p) (ppos p) (height_of p) (dtau p) (rtau p))
    as [s|e]; [|discriminate].
  bind_ok H n c1 Hn. unfold mbind, lift, ret in H.
  destruct (np_add s n) as [sn|e] eqn:Hadd; [|discriminate].
  injection H as <- <-. exists s, n, sn. auto.
Qed.

Lemma synthesize_shape (x x' : list Z) (c c' : nat) :
  (ppos p <= tlen p)%nat -> length x = tlen p ->
  synthesize exp raw p x c = Ok (x', c') ->
  length x' = tlen p /\ c' = (c + tlen p)%nat.
Proof.
  intros Hpos Hx Hs.
  destruct (synthesize_inv x x' c c' Hs) as (s & n & sn & Hp & Hn & Ha & ->).
  apply (pulse_length_delay exp) in Hp; [|exact Hpos].
  apply noise_shape in Hn. destruct Hn as [Hn ->]. rewrite Hx in Hn.
  rewrite np_add_same_length in Ha by congruence. injection Ha as <-.
  unfold np_add_scalar. rewrite length_map, zip_with_length, Hp, Hn, Hx.
  split; lia.
Qed.

Lemma trial_signals_shape (n : nat) :
  forall (x : list Z) (sigs : list (list Z)) (c c' : nat),
  (ppos p <= tlen p)%nat -> length x = tlen p ->
  trial_signals exp raw p n x c = Ok (sigs, c') ->
  Forall (fun s => length s = tlen p) sigs /\ c' = (c + n * tlen p)%nat.
Proof.
  induction n as [|n IH]; intros x sigs c c' Hpos Hx Htr.
  - cbn in Htr. injection Htr as <- <-. split; [constructor | lia].
  - cbn [trial_signals] in Htr.
    bind_ok Htr x1 c1 Hs. bind_ok Htr rest c2 Hrest.
    cbn in Htr. injection Htr as <- <-.
    destruct (synthesize_shape x x1 c c1 Hpos Hx Hs) as [Hx1 ->].
    destruct (IH x1 rest _ c2 Hpos Hx1 Hrest) as [Hall ->].
    split; [constructor; assumption | lia].
Qed.

End Synthesis.

(** With the pulse inside the signal ([ppos <= tlen]) every signal of a
    batch of [n] trials has [tlen] samples, like the signal before it, and
    the batch takes [n * tlen] draws from the random source: [tlen] new
    draws for each trial. *)
Theorem every_trial_has_tlen_samples_and_draws (exp : float -> float)
  (raw : nat -> Z) (p : params) (n : nat) (x : list Z)
  (sigs : list (list Z)) (c c' : nat) :
  (ppos p <= tlen p)%nat ->
  length x = tlen p ->
  trial_signals exp raw p n x c = Ok (sigs, c') ->
  length sigs = n
  /\ Forall (fun s => length s = tlen p) sigs
  /\ c' = (c + n * tlen p)%nat.
Proof.
  intros Hpos Hx Htr. split.
  - eapply trial_signals_length, Htr.
  - eapply trial_signals_shape; eassumption.
Qed.

Lemma every_trial_has_tlen_samples_and_draws_witness :
  Forall (fun s => length s = 4%nat)
    [[8068; 8069; 8070; 16208]; [8072; 8073; 8074; 16212];
     [8076; 8077; 8078; 16216]]
  /\ 16%nat = (4 + 3 * 4)%nat.
Proof.
  refine (proj2 (every_trial_has_tlen_samples_and_draws exp_table
                   counting_draws short_params 3 [8064; 8065; 8066; 16204]
                   _ 4 16 _ _ _)).
  - cbn. lia.
  - reflexivity.
  - vm_compute. reflexivity.
Defined.

(** Before the start of the pulse the synthesised signal is the baseline
    plus noise, whatever the pulse shape and [np.exp] are: for an amplitude
    that truncates to [a] (at most 2^62), every sample [k < ppos] lies in
    [[8192 - a, 8192 + a)]. *)
Theorem samples_before_the_pulse_are_baseline_plus_noise
  (exp : float -> float) (raw : nat -> Z) (p : params) (x x' : list Z)
  (c c' : nat) (q : Q) (k : nat) :
  synthesize exp raw p x c = Ok (x', c') ->
  (ppos p <= tlen p)%nat ->
  length x = tlen p ->
  pynum_value (amplitude_of p) = Some q ->
  Qtrunc q <= 2 ^ 62 ->
  (k < ppos p)%nat ->
  exists v,
    nth_error x' k = Some v
    /\ 8192 - Qtrunc q <= v < 8192 + Qtrunc q.
Proof.
  intros Hs Hpos Hx Hq Ha Hk.
  destruct (synthesize_inv exp raw p x x' c c' Hs)
    as (s & n & sn & Hp & Hn & Hadd & ->).
  pose proof (pulse_length_delay exp _ _ _ _ _ _ Hp Hpos) as Hls.
  pose proof (pulse_delay_region exp _ _ _ _ _ _ k Hp Hk) as Hsk.
  destruct (noise_shape raw _ _ _ _ _ Hn) as [Hln _].
  rewrite np_add_same_length in Hadd by congruence. injection Hadd as <-.
  rewrite (noise_cases raw _ _ q c Hq) in Hn.
  destruct (Nat.eqb_spec (length x) 0) as [H0|H0]; [lia|].
  destruct (- Qtrunc q <? Int64.min_int); [discriminate|].
  destruct (Qtrunc q - 1 >? Int64.max_int); [discriminate|].
  destruct (Z.gtb_spec (- Qtrunc q) (Qtrunc q - 1)) as [|Hle]; [discriminate|].
  unfold draw in Hn. injection Hn as <- _.
  unfold np_add_scalar.
  rewrite nth_error_map, zip_with_nth_error, Hsk, nth_error_map, nth_error_seq.
  replace (k <? length x)%nat with true by (symmetry; apply Nat.ltb_lt; lia).
  cbn [option_map]. eexists. split; [reflexivity|].
  pose proof (Z.mod_pos_bound (raw (c + (0 + k))%nat) (Qtrunc q - - Qtrunc q)
                ltac:(lia)) as Hm.
  unfold Int64.add. rewrite wrap_add_l.
  rewrite wrap_small
    by (unfold Int64.in_range, Int64.min_int, Int64.max_int; lia).
  lia.
Qed.

(** The short run, amplitude 128: the samples before the pulse of its
    second signal. *)
Lemma samples_before_the_pulse_are_baseline_plus_noise_witness :
  exists v,
    nth_error [8068; 8069; 8070; 16208] 1 = Some v
    /\ 8192 - 128 <= v < 8192 + 128.
Proof.
  change 128 with (Qtrunc (4503599627370496 # 35184372088832)).
  refine (samples_before_the_pulse_are_baseline_plus_noise exp_table
            counting_draws short_params [8064; 8065; 8066; 16204]
            [8068; 8069; 8070; 16208] 4 8
            (4503599627370496 # 35184372088832) 1 _ _ _ _ _ _).
  - vm_compute. reflexivity.
  - cbn. lia.
  - reflexivity.
  - vm_compute. reflexivity.
  - vm_compute. congruence.
  - cbn. lia.
Defined.

(** ** The first signal, the delay and the parameters *)

Lemma np_iadd_same_length (a b : list Z) :
  length a = length b -> np_iadd a b = Ok (zip_with Int64.add a b).
Proof. intros H. unfold np_iadd. rewrite H, Nat.eqb_refl. reflexivity. Qed.

(** When the pulse lies inside the signal ([ppos <= tlen]) and the previous
    signal has [tlen] samples, building the signal in place as lines 50-79
    do ([x = pulse(...)], then [x += noise(...)], then [x += 8192]) and
    evaluating the loop expression of lines 102 and 112 have the same
    outcome from the same draws: the same signal and cursor, or the same
    exception. *)
Theorem first_signal_is_a_synthesised_signal (exp : float -> float)
  (raw : nat -> Z) (p : params) (x : list Z) (c : nat) :
  (ppos p <= tlen p)%nat ->
  length x = tlen p ->
  first_signal exp raw p c = synthesize exp raw p x c.
Proof.
  intros Hpos Hx. unfold first_signal, synthesize, mbind, lift, ret.
  destruct (pulse exp (tlen p) (ppos p) (height_of p) (dtau p) (rtau p))
    as [s|e] eqn:Hp; [|reflexivity].
  pose proof (pulse_length_delay exp _ _ _ _ _ _ Hp Hpos) as Hls.
  rewrite Hls, Hx.
  destruct (noise raw (tlen p) (amplitude_of p) c) as [[n c1]|e] eqn:Hn;
    [|reflexivity].
  destruct (noise_shape raw _ _ _ _ _ Hn) as [Hln _].
  rewrite np_iadd_same_length, np_add_same_length by congruence.
  reflexivity.
Qed.

Lemma first_signal_is_a_synthesised_signal_witness :
  first_signal exp_table counting_draws short_params 0%nat
  = synthesize exp_table counting_draws short_params [0; 0; 0; 0] 0%nat.
Proof.
  apply first_signal_is_a_synthesised_signal.
  - cbn. lia.
  - reflexivity.
Defined.

(** The delay only shifts the pulse: the sample at index [k >= start] of a
    pulse of [length] samples starting at [start] is the sample at index
    [k - start] of the pulse of [length - start] samples starting at 0. *)
Theorem delay_shifts_the_pulse (exp : float -> float) (length start : nat)
  (height tau1 tau2 : float) (k : nat) :
  is_zero (tau1 - tau2) = false ->
  (start <= k < length)%nat ->
  exists y y0 v,
    pulse exp length start height tau1 tau2 = Ok y
    /\ pulse exp (length - start) 0 height tau1 tau2 = Ok y0
    /\ nth_error y k = Some v
    /\ nth_error y0 (k - start) = Some v.
Proof.
  intros Hnz Hk.
  destruct (pulse exp length start height tau1 tau2) as [y|e] eqn:Hy.
  2:{ rewrite pulse_unfold in Hy by exact Hnz. discriminate. }
  destruct (pulse exp (length - start) 0 height tau1 tau2) as [y0|e] eqn:Hy0.
  2:{ rewrite pulse_unfold in Hy0 by exact Hnz. discriminate. }
  exists y, y0. eexists. split; [reflexivity|]. split; [reflexivity|].
  split.
  - apply (pulse_after_delay exp _ _ _ _ _ _ _ Hy).
    rewrite pulse_samples_delay; lia.
  - rewrite (pulse_after_delay exp _ _ _ _ _ _ _ Hy0)
      by (rewrite pulse_samples_delay; lia).
    rewrite Nat.sub_0_r. reflexivity.
Qed.

Lemma delay_shifts_the_pulse_witness :
  exists y y0 v,
    pulse exp_table 4 2 (height_of short_params) 2 1 = Ok y
    /\ pulse exp_table (4 - 2) 0 (height_of short_params) 2 1 = Ok y0
    /\ nth_error y 3 = Some v
    /\ nth_error y0 (3 - 2) = Some v.
Proof.
  apply delay_shifts_the_pulse; [reflexivity | lia].
Defined.


